(** * fin_ai: the tools of the financial agent and their volume aggregation

    A shallow embedding of [fin_ai.py]: the HTTP helper
    [retrieve_from_endpoint], the [@tool] functions, the aggregation inside
    [get_top_companies_by_tx_volume], the tool list handed to the agent and
    the exception handlers of the chat loop.

    Conventions of the embedding:
    - a Python [dict] is an association list in insertion order whose keys
      are distinct ([d[k] = v] on a new key appends, on an old key replaces
      in place);
    - JSON numbers are [Z] (Python [int]) and [Q] (Python [float], read as
      the exact rational); the value of [avg_price] is taken in [Module Py],
      where prices are Python [int]s and [float]s with the arithmetic of
      Python;
    - a trade record is read with the types the API documents for it
      (symbol and company name strings, volume an integer, price a number);
    - the text that [json.dumps] returns is kept symbolic ([json_dumps j]),
      and [json.loads] gives back the value it was made from;
    - a [str] is a [string] and [len] is its length;
    - network calls are recorded in a trace of requests, exceptions are
      values of [exn]. *)

From Stdlib Require Import String Ascii DecimalString ZArith QArith Lia Bool.
From Stdlib Require Import Floats.
From Stdlib Require Import List Permutation Sorted.
Import ListNotations.

Local Open Scope string_scope.
Local Open Scope list_scope.
Local Open Scope Z_scope.

(** ** Python dictionaries *)

Module Dict.

Definition dict (V : Type) : Type := list (string * V).

Definition keys {V} (d : dict V) : list string := map fst d.
Definition values {V} (d : dict V) : list V := map snd d.
Definition items {V} (d : dict V) : list (string * V) := d.

(** [d[k]] *)
Fixpoint get {V} (k : string) (d : dict V) : option V :=
  match d with
  | [] => None
  | (k', v) :: d' => if String.eqb k k' then Some v else get k d'
  end.

(** [k in d] *)
Definition contains {V} (k : string) (d : dict V) : bool :=
  match get k d with Some _ => true | None => false end.

(** The object stored under [k] is mutated in place: [d[k][..] = ..]. *)
Fixpoint update {V} (k : string) (f : V -> V) (d : dict V) : dict V :=
  match d with
  | [] => []
  | (k', v) :: d' =>
      if String.eqb k k' then (k', f v) :: d' else (k', v) :: update k f d'
  end.

(** [d[k] = v] *)
Definition set {V} (k : string) (v : V) (d : dict V) : dict V :=
  if contains k d then update k (fun _ => v) d else d ++ [(k, v)].

End Dict.

Import Dict.

(** ** Trade records and accumulators *)

(** One element of a date's list in the payload of [most-traded]. *)
Record TradeRecord := {
  symbol : string;
  volume : Z;
  price : Q;
  company_name : string
}.

(** A value of [aggregated_data]: the dict literal of lines 101-107, with
    its keys in the order they are written there. *)
Record Accumulator := {
  acc_symbol : string;
  acc_volume : Z;
  avg_price : Q;
  count : Z;
  acc_company_name : string
}.

(** Lines 101-107: the accumulator of a symbol seen for the first time. *)
Definition new_accumulator (record : TradeRecord) : Accumulator :=
  {| acc_symbol := symbol record;
     acc_volume := volume record;
     avg_price := price record;
     count := 1;
     acc_company_name := company_name record |}.

(** Lines 96-99: [+=] on volume, avg_price and count. *)
Definition add_record (record : TradeRecord) (a : Accumulator) : Accumulator :=
  {| acc_symbol := acc_symbol a;
     acc_volume := acc_volume a + volume record;
     avg_price := (avg_price a + price record)%Q;
     count := count a + 1;
     acc_company_name := acc_company_name a |}.

(** Lines 91-107: the body of the inner loop. *)
Definition aggregate_record (aggregated_data : dict Accumulator)
    (record : TradeRecord) : dict Accumulator :=
  if contains (symbol record) aggregated_data
  then update (symbol record) (add_record record) aggregated_data
  else set (symbol record) (new_accumulator record) aggregated_data.

(** Lines 88-107: both loops, over [data_dict.values()] and over each
    date's list. *)
Definition aggregate (data_dict : dict (list TradeRecord)) : dict Accumulator :=
  fold_left
    (fun aggregated_data date_data =>
       fold_left aggregate_record date_data aggregated_data)
    (values data_dict) [].

(** Line 111: [data['avg_price'] / data['count']], [data] being the object
    stored under the symbol. *)
Definition set_average (data : Accumulator) : Accumulator :=
  {| acc_symbol := acc_symbol data;
     acc_volume := acc_volume data;
     avg_price := (avg_price data / inject_Z (count data))%Q;
     count := count data;
     acc_company_name := acc_company_name data |}.

(** Lines 110-111: the loop over [aggregated_data.items()]; each round
    writes into the dictionary it iterates over. *)
Definition average_prices (aggregated_data : dict Accumulator) : dict Accumulator :=
  fold_left
    (fun d item => update (fst item) set_average d)
    (items aggregated_data) aggregated_data.

(** ** [sorted] and slicing *)

(** Insertion into a list sorted by ascending key; [x] goes before the
    elements of equal key. *)
Fixpoint insert_by {A} (key : A -> Z) (x : A) (l : list A) : list A :=
  match l with
  | [] => [x]
  | y :: l' => if key x <=? key y then x :: l else y :: insert_by key x l'
  end.

(** A stable ascending sort: elements of equal key keep their order. *)
Definition stable_sort {A} (key : A -> Z) (l : list A) : list A :=
  fold_right (insert_by key) [] l.

(** [sorted(l, key=key, reverse=reverse)]. As in CPython's [list.sort],
    [reverse=True] reverses the list, sorts it in ascending order and
    reverses the result, which keeps the sort stable. *)
Definition sorted {A} (l : list A) (key : A -> Z) (reverse : bool) : list A :=
  if reverse then rev (stable_sort key (rev l)) else stable_sort key l.

(** [l[:n]]; a negative [n] counts from the end. *)
Definition slice_to {A} (l : list A) (n : Z) : list A :=
  if 0 <=? n then firstn (Z.to_nat n) l
  else firstn (Z.to_nat (Z.of_nat (List.length l) + n)) l.

(** Lines 88-114: [sorted_data] as a function of the parsed payload. *)
Definition sorted_data (data_dict : dict (list TradeRecord)) (top_n : Z)
    : list Accumulator :=
  let aggregated_data := average_prices (aggregate data_dict) in
  slice_to (sorted (values aggregated_data) acc_volume true) top_n.

(** ** Quantities the statements speak about *)

(** All records of the payload, in the order the loops visit them. *)
Definition records_of (data_dict : dict (list TradeRecord)) : list TradeRecord :=
  concat (values data_dict).

Definition has_symbol (s : string) (record : TradeRecord) : bool :=
  String.eqb s (symbol record).

(** The records of one symbol, in input order. *)
Definition records_for (s : string) (data_dict : dict (list TradeRecord))
    : list TradeRecord :=
  filter (has_symbol s) (records_of data_dict).

Definition Zsum (l : list Z) : Z := fold_right Z.add 0 l.
Definition Qsum (l : list Q) : Q := fold_right Qplus 0%Q l.

(** The unweighted arithmetic mean. *)
Definition mean (l : list Q) : Q := (Qsum l / inject_Z (Z.of_nat (List.length l)))%Q.

(** The distinct symbols of the input. *)
Definition distinct_symbols (data_dict : dict (list TradeRecord)) : list string :=
  nodup string_dec (map symbol (records_of data_dict)).

(** The dates whose list holds a record of the symbol. *)
Definition dates_with (s : string) (data_dict : dict (list TradeRecord))
    : list string :=
  keys (filter (fun item => existsb (has_symbol s) (snd item)) data_dict).

(** Position of the first record of a symbol in a list of records (the
    length of the list when there is none). *)
Fixpoint first_seen (s : string) (records : list TradeRecord) : nat :=
  match records with
  | [] => O
  | r :: records' => if has_symbol s r then O else S (first_seen s records')
  end.

(** ** JSON values, requests and exceptions *)

#[local] Set Warnings "-register-all".

(** What [response.json()] and [json.loads] return. *)
Inductive json :=
| JNull
| JBool (b : bool)
| JInt (n : Z)
| JFloat (x : Q)
| JStr (s : string)
| JArr (elements : list json)
| JObj (members : dict json).

(** The [str] that [json.dumps] returns. *)
Inductive json_text := json_dumps (j : json).

(** What a tool returns or passes on: a parsed JSON value or a [str]. *)
Inductive value :=
| Json (j : json)
| Str (text : json_text).

Record Request := {
  url : string;
  Authorization : string
}.

(** [body] is what [response.json()] parses, [None] when the body is not
    JSON. *)
Record Response := {
  status_code : Z;
  body : option json
}.

(** What the remote API does with a request: it answers, or the
    connection fails. *)
Inductive http_result :=
| Answered (response : Response)
| Unreachable.

Inductive exn :=
| AssertionError (message : string)
| HTTPError (response : Response)
| ConnectionError
| JSONDecodeError
| TypeError
| KeyError (key : string)
| SystemExit (code : exn).

(** The class hierarchy the [except] clauses test: [HTTPError],
    [ConnectionError] and [requests]' [JSONDecodeError] derive from
    [RequestException]; every class here derives from [Exception] except
    [SystemExit], which derives from [BaseException] only. *)
Definition isinstance_HTTPError (e : exn) : bool :=
  match e with HTTPError _ => true | _ => false end.

Definition isinstance_RequestException (e : exn) : bool :=
  match e with
  | HTTPError _ | ConnectionError | JSONDecodeError => true
  | _ => false
  end.

Definition isinstance_Exception (e : exn) : bool :=
  match e with SystemExit _ => false | _ => true end.

(** ** Computations that call the network and may raise *)

Inductive outcome (A : Type) :=
| Returned (a : A)
| Raised (e : exn).
Arguments Returned {A} a.
Arguments Raised {A} e.

(** A computation takes the requests issued so far and gives its outcome
    with the requests issued when it ends. *)
Definition M (A : Type) : Type := list Request -> outcome A * list Request.

Definition ret {A} (a : A) : M A := fun trace => (Returned a, trace).

Definition raise {A} (e : exn) : M A := fun trace => (Raised e, trace).

Definition bind {A B} (c : M A) (k : A -> M B) : M B :=
  fun trace =>
    match c trace with
    | (Returned a, trace') => k a trace'
    | (Raised e, trace') => (Raised e, trace')
    end.

Notation "x <- c ;; k" := (bind c (fun x => k))
  (at level 61, c at next level, right associativity).
Notation "c ;;; k" := (bind c (fun _ => k))
  (at level 61, right associativity).

(** [assert cond, message] *)
Definition py_assert (cond : bool) (message : string) : M unit :=
  if cond then ret tt else raise (AssertionError message).

(** [try: body except ...: handler]; [handler e] is [None] when no clause
    matches [e], which then goes on to the caller. *)
Definition try_except {A} (body : M A) (handler : exn -> option (M A)) : M A :=
  fun trace =>
    match body trace with
    | (Returned a, trace') => (Returned a, trace')
    | (Raised e, trace') =>
        match handler e with
        | Some h => h trace'
        | None => (Raised e, trace')
        end
    end.

(** [json.loads(data)]: a [TypeError] unless [data] is a [str]. *)
Definition json_loads (data : value) : M json :=
  match data with
  | Str (json_dumps j) => ret j
  | Json _ => raise TypeError
  end.

(** [x in l] on a list of strings. *)
Definition list_contains (x : string) (l : list string) : bool :=
  existsb (String.eqb x) l.

(** [str(n)] of an [int]. *)
Definition str_of_int (n : Z) : string := NilZero.string_of_int (Z.to_int n).

(** ** The payload of [most-traded] read as trade records *)

Definition field (k : string) (record : json) : option json :=
  match record with
  | JObj members => get k members
  | _ => None
  end.

(** [record['symbol']], [record['volume']], [record['price']] and
    [record['company_name']] of lines 91-94. *)
Definition read_record (record : json) : option TradeRecord :=
  match field "symbol" record, field "volume" record,
        field "price" record, field "company_name" record with
  | Some (JStr s), Some (JInt v), Some (JInt p), Some (JStr c) =>
      Some {| symbol := s; volume := v; price := inject_Z p; company_name := c |}
  | Some (JStr s), Some (JInt v), Some (JFloat p), Some (JStr c) =>
      Some {| symbol := s; volume := v; price := p; company_name := c |}
  | _, _, _, _ => None
  end.

Fixpoint read_all {A B} (f : A -> option B) (l : list A) : option (list B) :=
  match l with
  | [] => Some []
  | a :: l' =>
      match f a, read_all f l' with
      | Some b, Some bs => Some (b :: bs)
      | _, _ => None
      end
  end.

Definition read_date (item : string * json) : option (string * list TradeRecord) :=
  match snd item with
  | JArr date_data =>
      match read_all read_record date_data with
      | Some records => Some (fst item, records)
      | None => None
      end
  | _ => None
  end.

(** The payload as the loops of lines 89-94 read it: an object whose
    values are arrays of trade records. A payload of another shape is
    outside the embedding; the tool is then given a [TypeError]. *)
Definition read_data_dict (payload : json) : option (dict (list TradeRecord)) :=
  match payload with
  | JObj members => read_all read_date members
  | _ => None
  end.

(** An accumulator as [json.dumps] sees it, keys in the order of the dict
    literal of lines 101-107. *)
Definition accumulator_json (a : Accumulator) : json :=
  JObj [ ("symbol", JStr (acc_symbol a));
         ("volume", JInt (acc_volume a));
         ("avg_price", JFloat (avg_price a));
         ("count", JInt (count a));
         ("company_name", JStr (acc_company_name a)) ].

(** ** The HTTP helper and the tools *)

(** The f-string of line 60. *)
Definition company_report_url (stock sections : string) : string :=
  ("https://api.sectors.app/v1/company/report/" ++ stock
   ++ "/?sections=" ++ sections)%string.

(** The f-string of line 81. *)
Definition most_traded_url (start_date end_date : string) (top_n : Z) : string :=
  ("https://api.sectors.app/v1/most-traded/?start=" ++ start_date
   ++ "&end=" ++ end_date ++ "&n_stock=" ++ str_of_int top_n)%string.

Section Tools.

(** The key typed in the sidebar and the remote API. *)
Variable SECTORS_API_KEY : string.
Variable network : Request -> http_result.

(** [requests.get(url, headers=headers)] *)
Definition requests_get (url : string) (headers : string) : M Response :=
  fun trace =>
    let request := {| url := url; Authorization := headers |} in
    match network request with
    | Answered response => (Returned response, trace ++ [request])
    | Unreachable => (Raised ConnectionError, trace ++ [request])
    end.

(** [response.raise_for_status()]: an [HTTPError] for a status from 400 to
    599. *)
Definition raise_for_status (response : Response) : M unit :=
  if (400 <=? status_code response) && (status_code response <? 600)
  then raise (HTTPError response)
  else ret tt.

(** [response.json()] *)
Definition response_json (response : Response) : M json :=
  match body response with
  | Some data => ret data
  | None => raise JSONDecodeError
  end.

(** Lines 25-34. *)
Definition retrieve_from_endpoint (url : string) : M value :=
  let headers := SECTORS_API_KEY in
  data <- try_except
            (response <- requests_get url headers ;;
             raise_for_status response ;;;
             response_json response)
            (fun err =>
               if isinstance_HTTPError err
               then Some (raise (SystemExit err))
               else None) ;;
  ret (Str (json_dumps data)).

Definition valid_sections : list string :=
  [ "overview"; "valuation"; "future"; "peers"; "financials";
    "dividend"; "management"; "ownership" ].

(** Lines 55-61. *)
Definition get_company_report (stock sections : string) : M value :=
  py_assert (list_contains sections valid_sections)
    "Please specify a section from the documentation" ;;;
  py_assert (Nat.eqb (String.length stock) 4)
    "Symbol saham harus 4 digit, e.g BBRI" ;;;
  let url := company_report_url stock sections in
  retrieve_from_endpoint url.

(** Lines 79-116. *)
Definition get_top_companies_by_tx_volume (start_date end_date : string)
    (top_n : Z) : M value :=
  py_assert (0 <? top_n)
    "Please enter a valid value (cannot be minus and '0')" ;;;
  let url := most_traded_url start_date end_date top_n in
  data <- retrieve_from_endpoint url ;;
  payload <- json_loads data ;;
  match read_data_dict payload with
  | Some data_dict =>
      ret (Str (json_dumps (JArr (map accumulator_json (sorted_data data_dict top_n)))))
  | None => raise TypeError
  end.

(** Lines 128-130. *)
Definition get_daily_tx (stock : string) : M value :=
  let url := ("https://api.sectors.app/v1/daily/" ++ stock ++ "/")%string in
  retrieve_from_endpoint url.

(** Lines 137-139. *)
Definition get_company_performance_ipo (stock : string) : M value :=
  let url := ("https://api.sectors.app/v1/listing-performance/" ++ stock ++ "/")%string in
  retrieve_from_endpoint url.

(** Lines 157-159. *)
Definition get_companies_by_subsector (sub_sector : string) : M value :=
  let url := ("https://api.sectors.app/v1/companies/?sub_sector=" ++ sub_sector)%string in
  retrieve_from_endpoint url.

(** Lines 166-168. *)
Definition get_subsector_report (sector section : string) : M value :=
  let url := ("https://api.sectors.app/v1/subsector/report/" ++ sector
             ++ "/?sections=" ++ section)%string in
  retrieve_from_endpoint url.

End Tools.

(** The default of the parameter [top_n]. *)
Definition default_top_n : Z := 5.

(** ** The tool list *)

(** The functions decorated with [@tool], by name. *)
Inductive tool :=
| tool_get_company_report
| tool_get_top_companies_by_tx_volume
| tool_get_daily_tx
| tool_get_company_performance_ipo
| tool_get_companies_by_subsector
| tool_get_subsector_report.

(** A call the agent makes: a tool and its arguments. *)
Inductive tool_call :=
| call_get_company_report (stock sections : string)
| call_get_top_companies_by_tx_volume (start_date end_date : string) (top_n : Z)
| call_get_daily_tx (stock : string)
| call_get_company_performance_ipo (stock : string)
| call_get_companies_by_subsector (sub_sector : string)
| call_get_subsector_report (sector section : string).

Definition tool_of (c : tool_call) : tool :=
  match c with
  | call_get_company_report _ _ => tool_get_company_report
  | call_get_top_companies_by_tx_volume _ _ _ => tool_get_top_companies_by_tx_volume
  | call_get_daily_tx _ => tool_get_daily_tx
  | call_get_company_performance_ipo _ => tool_get_company_performance_ipo
  | call_get_companies_by_subsector _ => tool_get_companies_by_subsector
  | call_get_subsector_report _ _ => tool_get_subsector_report
  end.

Definition run_tool (key : string) (network : Request -> http_result)
    (c : tool_call) : M value :=
  match c with
  | call_get_company_report stock sections =>
      get_company_report key network stock sections
  | call_get_top_companies_by_tx_volume start_date end_date top_n =>
      get_top_companies_by_tx_volume key network start_date end_date top_n
  | call_get_daily_tx stock => get_daily_tx key network stock
  | call_get_company_performance_ipo stock =>
      get_company_performance_ipo key network stock
  | call_get_companies_by_subsector sub_sector =>
      get_companies_by_subsector key network sub_sector
  | call_get_subsector_report sector section =>
      get_subsector_report key network sector section
  end.

(** Every function of the file that carries [@tool]. *)
Definition decorated_tools : list tool :=
  [ tool_get_company_report;
    tool_get_top_companies_by_tx_volume;
    tool_get_daily_tx;
    tool_get_company_performance_ipo;
    tool_get_companies_by_subsector;
    tool_get_subsector_report ].

(** Lines 178-184: the list given to [create_tool_calling_agent] and to
    [AgentExecutor]. *)
Definition tools : list tool :=
  [ tool_get_company_report;
    tool_get_top_companies_by_tx_volume;
    tool_get_daily_tx;
    tool_get_company_performance_ipo;
    tool_get_companies_by_subsector ].

Definition tool_eqb (a b : tool) : bool :=
  match a, b with
  | tool_get_company_report, tool_get_company_report
  | tool_get_top_companies_by_tx_volume, tool_get_top_companies_by_tx_volume
  | tool_get_daily_tx, tool_get_daily_tx
  | tool_get_company_performance_ipo, tool_get_company_performance_ipo
  | tool_get_companies_by_subsector, tool_get_companies_by_subsector
  | tool_get_subsector_report, tool_get_subsector_report => true
  | _, _ => false
  end.

Definition registered (t : tool) : bool := existsb (tool_eqb t) tools.

(** ** The chat loop *)

Record ChatMessage := {
  role : string;
  content : string
}.

(** The four texts given to [st.error] at lines 271-277. *)
Inductive error_text :=
| usage_limit_reached
| something_went_wrong (e : exn)
| network_issue (e : exn)
| unexpected_error (e : exn).

(** What a turn puts on the page. *)
Inductive display :=
| chat_write (role content : string)
| st_success (text : string)
| st_error (text : error_text).

(** Session state and page after a turn; [uncaught] is the exception that
    leaves the script when no [except] clause took it. *)
Record turn := {
  messages : list ChatMessage;
  page : list display;
  uncaught : option exn
}.

(** Lines 269-277: the [except] clauses in their order; [None] when none of
    them matches. *)
Definition except_clauses (e : exn) : option error_text :=
  match e with
  | HTTPError response =>
      if status_code response =? 429
      then Some usage_limit_reached
      else Some (something_went_wrong e)
  | _ =>
      if isinstance_RequestException e then Some (network_issue e)
      else if isinstance_Exception e then Some (unexpected_error e)
      else None
  end.

(** Lines 251-277, given what [agent_executor.invoke] did: it returned the
    dictionary [response] or raised. *)
Definition chat_turn (session_messages : list ChatMessage) (prompt : string)
    (invoke : outcome (dict string)) : turn :=
  let messages1 := session_messages ++ [ {| role := "user"; content := prompt |} ] in
  let page1 := [ chat_write "user" prompt ] in
  let failed messages e :=
    match except_clauses e with
    | Some text =>
        {| messages := messages; page := page1 ++ [ st_error text ]; uncaught := None |}
    | None =>
        {| messages := messages; page := page1; uncaught := Some e |}
    end in
  match invoke with
  | Returned response =>
      let answer :=
        match get "output" response with
        | Some output => output
        | None => "No response received."
        end in
      let messages2 := messages1 ++ [ {| role := "assistant"; content := answer |} ] in
      match get "output" response with
      | Some output =>
          {| messages := messages2; page := page1 ++ [ st_success output ]; uncaught := None |}
      | None => failed messages2 (KeyError "output")
      end
  | Raised e => failed messages1 e
  end.

(** A turn in which the agent makes one call of a tool; an exception of
    the tool leaves [invoke] as it is, and a result is given back as the
    answer [output]. *)
Definition turn_with_call (key : string) (network : Request -> http_result)
    (session_messages : list ChatMessage) (prompt : string) (c : tool_call)
    (output : string) : turn :=
  match fst (run_tool key network c []) with
  | Returned _ => chat_turn session_messages prompt (Returned [("output", output)])
  | Raised e => chat_turn session_messages prompt (Raised e)
  end.

(** ** Notions used in the proofs *)

(** The order in which a list of symbols enters a dictionary: every symbol
    at its first occurrence. *)
Fixpoint first_occurrences (l : list string) : list string :=
  match l with
  | [] => []
  | s :: l' => s :: filter (fun x => negb (String.eqb s x)) (first_occurrences l')
  end.

(** The accumulator of a symbol after its records [rs], from [a]. *)
Definition accumulate (rs : list TradeRecord) (a : Accumulator) : Accumulator :=
  fold_left (fun a r => add_record r a) rs a.

(** What the loop stores under one symbol depends on the records of that
    symbol only. *)
Definition fold_symbol (o : option Accumulator) (r : TradeRecord)
    : option Accumulator :=
  match o with
  | Some a => Some (add_record r a)
  | None => Some (new_accumulator r)
  end.

(** Orders on the sort key. *)
Definition ascending {A} (key : A -> Z) (a b : A) : Prop := key a <= key b.
Definition descending {A} (key : A -> Z) (a b : A) : Prop := key b <= key a.

(** [before x y l]: an occurrence of [x] in [l] is followed by one of [y]. *)
Fixpoint before {A} (x y : A) (l : list A) : Prop :=
  match l with
  | [] => False
  | a :: l' => (a = x /\ In y l') \/ before x y l'
  end.

(** ** Concrete inputs *)

(** The scenario of the specification. *)
Definition scenario : dict (list TradeRecord) :=
  [ ("2024-01-01",
     [ {| symbol := "AAAA"; volume := 100; price := 10; company_name := "Alpha" |};
       {| symbol := "BBBB"; volume := 50; price := 20; company_name := "Beta" |} ]);
    ("2024-01-02",
     [ {| symbol := "AAAA"; volume := 200; price := 12; company_name := "Alpha" |} ]) ].

(** The two entries of the scenario's output. *)
Definition scenario_AAAA : Accumulator :=
  {| acc_symbol := "AAAA"; acc_volume := 300; avg_price := 22 # 2; count := 2;
     acc_company_name := "Alpha" |}.

Definition scenario_BBBB : Accumulator :=
  {| acc_symbol := "BBBB"; acc_volume := 50; avg_price := 20 # 1; count := 1;
     acc_company_name := "Beta" |}.

(** One date that lists the same symbol twice. *)
Definition same_date_twice : dict (list TradeRecord) :=
  [ ("2024-01-01",
     [ {| symbol := "AAAA"; volume := 100; price := 10; company_name := "Alpha" |};
       {| symbol := "AAAA"; volume := 50; price := 20; company_name := "Alpha" |} ]) ].

(** Two symbols of equal total volume, and a company name that changes
    from one record to the next. *)
Definition tie : dict (list TradeRecord) :=
  [ ("2024-01-01",
     [ {| symbol := "BBBB"; volume := 70; price := 5; company_name := "Beta" |};
       {| symbol := "AAAA"; volume := 100; price := 10; company_name := "Alpha" |} ]);
    ("2024-01-02",
     [ {| symbol := "BBBB"; volume := 30; price := 7; company_name := "Beta Tbk" |} ]) ].

(** The two entries of its output. *)
Definition tie_BBBB : Accumulator :=
  {| acc_symbol := "BBBB"; acc_volume := 100; avg_price := 12 # 2; count := 2;
     acc_company_name := "Beta" |}.

Definition tie_AAAA : Accumulator :=
  {| acc_symbol := "AAAA"; acc_volume := 100; avg_price := 10 # 1; count := 1;
     acc_company_name := "Alpha" |}.

(** Remote APIs that give the same answer to every request. *)
Definition always_empty (request : Request) : http_result :=
  Answered {| status_code := 200; body := Some (JObj []) |}.

Definition always_429 (request : Request) : http_result :=
  Answered {| status_code := 429; body := None |}.

Definition always_500 (request : Request) : http_result :=
  Answered {| status_code := 500; body := None |}.

(** The total traded volume of a symbol over the whole payload. *)
Definition total_volume (s : string) (data_dict : dict (list TradeRecord)) : Z :=
  Zsum (map volume (records_for s data_dict)).

(** The accumulator of AAAA in the scenario before the averages are
    taken: [avg_price] still holds the sum of the prices. *)
Definition scenario_AAAA_total : Accumulator :=
  {| acc_symbol := "AAAA"; acc_volume := 300; avg_price := 22 # 1; count := 2;
     acc_company_name := "Alpha" |}.

(** The records of the scenario filed under a single date. *)
Definition scenario_one_date : dict (list TradeRecord) :=
  [ ("2024-01-03", records_of scenario) ].

(** The root of every endpoint of the API. *)
Definition api_root : string := "https://api.sectors.app/v1/".

(** The tools whose body has no assertion. *)
Definition tools_without_assertion : list tool :=
  [ tool_get_daily_tx; tool_get_company_performance_ipo;
    tool_get_companies_by_subsector; tool_get_subsector_report ].

(** More remote APIs: one that answers 304 with an empty array, one that
    cannot be reached. *)
Definition always_304 (request : Request) : http_result :=
  Answered {| status_code := 304; body := Some (JArr []) |}.

Definition never_answers (request : Request) : http_result := Unreachable.

(** ** The session over several runs of the script *)

(** A value of [st.session_state]: a key typed in the sidebar or the
    transcript. *)
Inductive state_value :=
| StateStr (s : string)
| StateMessages (l : list ChatMessage).

(** [if k not in st.session_state: st.session_state[k] = v] *)
Definition init_key (k : string) (v : state_value)
    (session_state : dict state_value) : dict state_value :=
  if negb (contains k session_state) then set k v session_state else session_state.

(** Lines 14-17. *)
Definition init_api_keys (session_state : dict state_value) : dict state_value :=
  init_key "groq_api_key" (StateStr "")
    (init_key "sectors_api_key" (StateStr "") session_state).

(** Lines 244-245. *)
Definition init_messages (session_state : dict state_value) : dict state_value :=
  init_key "messages" (StateMessages []) session_state.

(** The transcript after a run of lines 251-277 for each input in turn,
    each with what [agent_executor.invoke] did; the transcript of one run
    is the session state of the next. *)
Definition run_turns (turns : list (string * outcome (dict string)))
    (session_messages : list ChatMessage) : list ChatMessage :=
  fold_left (fun msgs t => messages (chat_turn msgs (fst t) (snd t)))
            turns session_messages.

Definition is_user (m : ChatMessage) : bool := String.eqb (role m) "user".

(** Every entry that is not the user's directly follows an entry of the
    user; [after_user] says whether the entry before the list is one. *)
Fixpoint answers_follow_inputs (after_user : bool) (l : list ChatMessage) : bool :=
  match l with
  | [] => true
  | m :: l' =>
      if is_user m then answers_follow_inputs true l'
      else after_user && answers_follow_inputs false l'
  end.

(** ** Prices in the arithmetic of Python *)

(** The aggregation once more, lines 88-114, with the prices as
    [json.loads] gives them, Python [int] or [float], and with the
    addition and the true division of Python on them: a [float] is an IEEE
    754 binary64 number, [int + float] and [float / int] convert the [int]
    first, [int / int] is the quotient rounded once to the nearest
    [float], and a result too large for a [float] is an [OverflowError].
    The definitions above, which read a price as the rational it denotes,
    say nothing false about symbols, volumes, counts and order; the value
    of [avg_price] is what this module is for. *)
Module Py.

Inductive number :=
| Int (n : Z)
| Float (x : float).

Inductive error :=
| OverflowError
| ZeroDivisionError.

Inductive result (A : Type) :=
| Value (a : A)
| Raises (e : error).
Arguments Value {A} a.
Arguments Raises {A} e.

Definition bind {A B} (c : result A) (k : A -> result B) : result B :=
  match c with
  | Value a => k a
  | Raises e => Raises e
  end.

(** [m * 2^e] rounded to the nearest [float], ties to even; a result
    beyond the largest [float] is an [OverflowError]. *)
Definition rounded (m e : Z) : result float :=
  match binary_normalize prec emax m e false with
  | S754_infinity _ => Raises OverflowError
  | x => Value (SF2Prim x)
  end.

(** [float(n)] of an [int]. *)
Definition float_of_int (n : Z) : result float := rounded n 0.

(** [m / n] of two [int]s, [n] not 0: the quotient with 64 bits and more,
    and one more bit that says whether a remainder was left, rounded
    once. *)
Definition int_truediv (m n : Z) : result float :=
  let k := 64 + Z.log2 (Z.abs n) in
  let scaled := Z.abs m * 2 ^ k in
  let q := scaled / Z.abs n in
  let sticky := if scaled mod Z.abs n =? 0 then 0 else 1 in
  rounded (Z.sgn m * Z.sgn n * (2 * q + sticky)) (- (k + 1)).

(** [a + b], the [+=] of line 98. *)
Definition add (a b : number) : result number :=
  match a, b with
  | Int m, Int n => Value (Int (m + n))
  | Int m, Float y =>
      bind (float_of_int m) (fun x => Value (Float (PrimFloat.add x y)))
  | Float x, Int n =>
      bind (float_of_int n) (fun y => Value (Float (PrimFloat.add x y)))
  | Float x, Float y => Value (Float (PrimFloat.add x y))
  end.

(** [a / n] for an [int] [n], the division of line 111. *)
Definition truediv (a : number) (n : Z) : result number :=
  if n =? 0 then Raises ZeroDivisionError
  else match a with
       | Int m => bind (int_truediv m n) (fun x => Value (Float x))
       | Float x =>
           bind (float_of_int n) (fun y => Value (Float (PrimFloat.div x y)))
       end.

(** The rational a number denotes; none for an infinity or a NaN. *)
Definition exact (a : number) : option Q :=
  match a with
  | Int n => Some (inject_Z n)
  | Float x =>
      match Prim2SF x with
      | S754_zero _ => Some 0%Q
      | S754_finite s m e =>
          Some ((if s then - inject_Z (Z.pos m) else inject_Z (Z.pos m)) * 2 ^ e)%Q
      | _ => None
      end
  end.

Record TradeRecord := {
  symbol : string;
  volume : Z;
  price : number;
  company_name : string
}.

Record Accumulator := {
  acc_symbol : string;
  acc_volume : Z;
  avg_price : number;
  count : Z;
  acc_company_name : string
}.

(** Lines 101-107. *)
Definition new_accumulator (record : TradeRecord) : Accumulator :=
  {| acc_symbol := symbol record;
     acc_volume := volume record;
     avg_price := price record;
     count := 1;
     acc_company_name := company_name record |}.

(** Lines 96-99; the addition of line 98 may raise. *)
Definition add_record (record : TradeRecord) (a : Accumulator) : result Accumulator :=
  bind (add (avg_price a) (price record)) (fun total =>
  Value {| acc_symbol := acc_symbol a;
           acc_volume := acc_volume a + volume record;
           avg_price := total;
           count := count a + 1;
           acc_company_name := acc_company_name a |}).

(** Lines 91-107: the body of the inner loop. *)
Definition aggregate_record (aggregated_data : dict Accumulator)
    (record : TradeRecord) : result (dict Accumulator) :=
  match get (symbol record) aggregated_data with
  | Some a =>
      bind (add_record record a) (fun a' =>
      Value (update (symbol record) (fun _ => a') aggregated_data))
  | None => Value (set (symbol record) (new_accumulator record) aggregated_data)
  end.

(** A loop whose body may raise: the first exception ends it. *)
Fixpoint for_each {A B} (body : A -> B -> result A) (l : list B) (a : A) : result A :=
  match l with
  | [] => Value a
  | b :: l' => bind (body a b) (for_each body l')
  end.

(** Lines 88-107. *)
Definition aggregate (data_dict : dict (list TradeRecord)) : result (dict Accumulator) :=
  for_each
    (fun aggregated_data date_data =>
       for_each aggregate_record date_data aggregated_data)
    (values data_dict) [].

(** Line 111. *)
Definition set_average (data : Accumulator) : result Accumulator :=
  bind (truediv (avg_price data) (count data)) (fun average =>
  Value {| acc_symbol := acc_symbol data;
           acc_volume := acc_volume data;
           avg_price := average;
           count := count data;
           acc_company_name := acc_company_name data |}).

(** Lines 110-111; [data] is the object stored under [symbol], which no
    earlier round of the loop has changed. *)
Definition average_prices (aggregated_data : dict Accumulator)
    : result (dict Accumulator) :=
  for_each
    (fun d item =>
       bind (set_average (snd item)) (fun data =>
       Value (update (fst item) (fun _ => data) d)))
    (items aggregated_data) aggregated_data.

(** Lines 88-114. *)
Definition sorted_data (data_dict : dict (list TradeRecord)) (top_n : Z)
    : result (list Accumulator) :=
  bind (aggregate data_dict) (fun aggregated_data =>
  bind (average_prices aggregated_data) (fun aggregated_data =>
  Value (slice_to (sorted (values aggregated_data) acc_volume true) top_n))).

Definition records_of (data_dict : dict (list TradeRecord)) : list TradeRecord :=
  concat (values data_dict).

Definition has_symbol (s : string) (record : TradeRecord) : bool :=
  String.eqb s (symbol record).

(** The prices of the records of one symbol, in input order. *)
Definition prices_for (s : string) (data_dict : dict (list TradeRecord))
    : list number :=
  map price (filter (has_symbol s) (records_of data_dict)).

(** [((p1 + p2) + ...) + pK]: the prices added from the left. *)
Definition sum_prices (p : number) (ps : list number) : result number :=
  for_each add ps p.

(** [(p1 + ... + pK) / K] as Python computes it. *)
Definition python_mean (prices : list number) : result number :=
  match prices with
  | [] => Raises ZeroDivisionError
  | p :: ps =>
      bind (sum_prices p ps) (fun total =>
      truediv total (Z.of_nat (length prices)))
  end.

(** The mean of the rationals that the prices denote: [(p1 + ... + pK) / K]
    without rounding. *)
Fixpoint exact_all (prices : list number) : option (list Q) :=
  match prices with
  | [] => Some []
  | p :: ps =>
      match exact p, exact_all ps with
      | Some q, Some qs => Some (q :: qs)
      | _, _ => None
      end
  end.

Definition exact_mean (prices : list number) : option Q :=
  option_map mean (exact_all prices).

(** What the loop does to the accumulator of one symbol at one of its
    records. *)
Definition fold_symbol (o : option Accumulator) (record : TradeRecord)
    : result (option Accumulator) :=
  match o with
  | Some a => bind (add_record record a) (fun a' => Value (Some a'))
  | None => Value (Some (new_accumulator record))
  end.

(** The scenario of the specification. *)
Definition scenario : dict (list TradeRecord) :=
  [ ("2024-01-01",
     [ {| symbol := "AAAA"; volume := 100; price := Int 10; company_name := "Alpha" |};
       {| symbol := "BBBB"; volume := 50; price := Int 20; company_name := "Beta" |} ]);
    ("2024-01-02",
     [ {| symbol := "AAAA"; volume := 200; price := Int 12; company_name := "Alpha" |} ]) ].

Definition scenario_AAAA : Accumulator :=
  {| acc_symbol := "AAAA"; acc_volume := 300; avg_price := Float 11%float; count := 2;
     acc_company_name := "Alpha" |}.

Definition scenario_BBBB : Accumulator :=
  {| acc_symbol := "BBBB"; acc_volume := 50; avg_price := Float 20%float; count := 1;
     acc_company_name := "Beta" |}.

(** One record whose price is the integer 2^53 + 1. *)
Definition large_price : dict (list TradeRecord) :=
  [ ("2024-01-01",
     [ {| symbol := "AAAA"; volume := 100; price := Int 9007199254740993;
          company_name := "Alpha" |} ]) ].

(** Three records of one symbol with the prices 1, 1 and 2. *)
Definition thirds : dict (list TradeRecord) :=
  [ ("2024-01-01",
     [ {| symbol := "AAAA"; volume := 100; price := Int 1; company_name := "Alpha" |} ]);
    ("2024-01-02",
     [ {| symbol := "AAAA"; volume := 100; price := Int 1; company_name := "Alpha" |} ]);
    ("2024-01-03",
     [ {| symbol := "AAAA"; volume := 100; price := Int 2; company_name := "Alpha" |} ]) ].

End Py.

(** * Facts about the embedding *)

(** ** Dictionaries *)

Section DictFacts.

Context {V : Type}.
Implicit Types (d : dict V) (k s : string).

Lemma contains_true_iff k d : contains k d = true <-> In k (keys d).
Proof.
  unfold contains. induction d as [|[k' v] d IH]; simpl.
  - split; [discriminate | tauto].
  - destruct (String.eqb_spec k k') as [->|Hne].
    + split; auto.
    + rewrite IH. split; [auto | intros [E|H]; [congruence | exact H]].
Qed.

Lemma contains_false_iff k d : contains k d = false <-> ~ In k (keys d).
Proof.
  rewrite <- contains_true_iff. destruct (contains k d); split; congruence.
Qed.

Lemma get_none_iff k d : get k d = None <-> ~ In k (keys d).
Proof.
  rewrite <- contains_false_iff. unfold contains.
  destruct (get k d); split; congruence.
Qed.

Lemma keys_update k f d : keys (update k f d) = keys d.
Proof.
  induction d as [|[k' v] d IH]; simpl; [reflexivity|].
  destruct (String.eqb k k'); simpl; [reflexivity | now rewrite IH].
Qed.

Lemma get_update s k f d :
  get s (update k f d) =
  if String.eqb s k then option_map f (get s d) else get s d.
Proof.
  induction d as [|[k' v] d IH]; simpl.
  - now destruct (String.eqb s k).
  - destruct (String.eqb_spec k k') as [->|Hne]; simpl.
    + destruct (String.eqb_spec s k'); reflexivity.
    + rewrite IH. destruct (String.eqb_spec s k') as [->|Hne'].
      * destruct (String.eqb_spec k' k); [congruence | reflexivity].
      * reflexivity.
Qed.

Lemma get_app_new s k v d :
  get s (d ++ [(k, v)]) =
  match get s d with
  | Some x => Some x
  | None => if String.eqb s k then Some v else None
  end.
Proof.
  induction d as [|[k' v'] d IH]; simpl; [reflexivity|].
  destruct (String.eqb s k'); [reflexivity | exact IH].
Qed.

Lemma set_new k v d : contains k d = false -> set k v d = d ++ [(k, v)].
Proof. unfold set. now intros ->. Qed.

Lemma get_of_In k v d : NoDup (keys d) -> In (k, v) d -> get k d = Some v.
Proof.
  induction d as [|[k' v'] d IH]; simpl; [tauto|].
  intros Hnd [E|Hin].
  - inversion E; subst. now rewrite String.eqb_refl.
  - inversion Hnd as [|? ? Hnotin Hnd']; subst.
    destruct (String.eqb_spec k k') as [->|Hne].
    + exfalso. apply Hnotin. change k' with (fst (k', v)). now apply in_map.
    + now apply IH.
Qed.

(** Updating every key in turn, as a loop over [items] does, changes every
    value once. *)
Lemma update_each (f : V -> V) (todo done : dict V) :
  NoDup (keys (done ++ todo)) ->
  fold_left (fun d item => update (fst item) f d) todo (done ++ todo) =
  done ++ map (fun item => (fst item, f (snd item))) todo.
Proof.
  revert done. induction todo as [|[k v] todo IH]; intros done Hnd; simpl.
  - reflexivity.
  - assert (Hk : ~ In k (keys done)).
    { unfold keys in *. rewrite map_app in Hnd. simpl in Hnd.
      apply NoDup_remove_2 in Hnd. intro H. apply Hnd. apply in_or_app. now left. }
    assert (Hupd : update k f (done ++ (k, v) :: todo) = (done ++ [(k, f v)]) ++ todo).
    { clear -Hk. induction done as [|[k' v'] done IH]; simpl.
      - now rewrite String.eqb_refl.
      - destruct (String.eqb_spec k k') as [->|Hne].
        + exfalso. apply Hk. now left.
        + f_equal. apply IH. intro H. apply Hk. now right. }
    rewrite Hupd, IH.
    + now rewrite <- app_assoc.
    + unfold keys in *. rewrite <- app_assoc. simpl.
      rewrite !map_app in *. exact Hnd.
Qed.

End DictFacts.

(** ** The aggregation loops *)

Lemma fold_left_concat {A B} (f : A -> B -> A) (ls : list (list B)) (a : A) :
  fold_left (fun a l => fold_left f l a) ls a = fold_left f (concat ls) a.
Proof.
  revert a. induction ls as [|l ls IH]; intro a; simpl; [reflexivity|].
  now rewrite fold_left_app, IH.
Qed.

Lemma aggregate_flat data_dict :
  aggregate data_dict = fold_left aggregate_record (records_of data_dict) [].
Proof. unfold aggregate, records_of. apply fold_left_concat. Qed.

Lemma keys_aggregate_record d r :
  keys (aggregate_record d r) =
  if contains (symbol r) d then keys d else keys d ++ [symbol r].
Proof.
  unfold aggregate_record. destruct (contains (symbol r) d) eqn:E.
  - apply keys_update.
  - rewrite set_new by exact E. unfold keys. now rewrite map_app.
Qed.

Lemma filter_filter_absorb (ks : list string) (x : string) (l : list string) :
  In x ks ->
  filter (fun s => negb (list_contains s ks))
         (filter (fun s => negb (String.eqb x s)) l) =
  filter (fun s => negb (list_contains s ks)) l.
Proof.
  intro Hx. induction l as [|y l IH]; simpl; [reflexivity|].
  destruct (String.eqb_spec x y) as [<-|Hne]; simpl.
  - assert (list_contains x ks = true) as ->.
    { unfold list_contains. apply existsb_exists. exists x. split; [exact Hx|].
      apply String.eqb_refl. }
    simpl. exact IH.
  - now rewrite IH.
Qed.

Lemma list_contains_iff x l : list_contains x l = true <-> In x l.
Proof.
  unfold list_contains. rewrite existsb_exists. split.
  - intros [y [Hy E]]. apply String.eqb_eq in E. now subst.
  - intro H. exists x. split; [exact H | apply String.eqb_refl].
Qed.

Lemma list_contains_app x l1 l2 :
  list_contains x (l1 ++ l2) = list_contains x l1 || list_contains x l2.
Proof. unfold list_contains. apply existsb_app. Qed.

(** The keys of the dictionary after a run of the loop: the keys it had,
    then the new symbols in the order of their first occurrence. *)
Lemma keys_fold rs : forall d,
  keys (fold_left aggregate_record rs d) =
  keys d ++ filter (fun s => negb (list_contains s (keys d)))
                   (first_occurrences (map symbol rs)).
Proof.
  induction rs as [|r rs IH]; intro d; simpl.
  - now rewrite app_nil_r.
  - rewrite IH, keys_aggregate_record.
    destruct (contains (symbol r) d) eqn:E.
    + apply contains_true_iff in E.
      assert (list_contains (symbol r) (keys d) = true) as ->
        by now apply list_contains_iff.
      simpl. now rewrite filter_filter_absorb.
    + assert (list_contains (symbol r) (keys d) = false) as ->.
      { apply contains_false_iff in E.
        destruct (list_contains (symbol r) (keys d)) eqn:F; [|reflexivity].
        apply list_contains_iff in F. contradiction. }
      simpl. rewrite <- app_assoc. simpl. do 2 f_equal.
      set (l := first_occurrences (map symbol rs)). clearbody l.
      induction l as [|y l IHl]; simpl; [reflexivity|].
      rewrite list_contains_app. simpl. rewrite orb_false_r.
      rewrite (String.eqb_sym y (symbol r)).
      destruct (String.eqb (symbol r) y); simpl;
        destruct (list_contains y (keys d)); simpl; rewrite ?IHl; reflexivity.
Qed.

Lemma keys_aggregate data_dict :
  keys (aggregate data_dict) =
  first_occurrences (map symbol (records_of data_dict)).
Proof.
  rewrite aggregate_flat, keys_fold. simpl.
  induction (first_occurrences _) as [|y l IH]; simpl; [reflexivity|].
  now rewrite IH.
Qed.

Lemma first_occurrences_In s l : In s (first_occurrences l) <-> In s l.
Proof.
  induction l as [|x l IH]; simpl; [tauto|].
  rewrite filter_In, IH. destruct (String.eqb_spec x s) as [->|Hne]; simpl.
  - tauto.
  - split; [tauto|]. intros [E|H]; [congruence | auto].
Qed.

Lemma NoDup_filter {A} (p : A -> bool) (l : list A) :
  NoDup l -> NoDup (filter p l).
Proof.
  induction 1 as [|x l Hx Hnd IH]; simpl; [constructor|].
  destruct (p x); [|exact IH].
  constructor; [|exact IH]. rewrite filter_In. tauto.
Qed.

Lemma first_occurrences_NoDup l : NoDup (first_occurrences l).
Proof.
  induction l as [|x l IH]; simpl; constructor.
  - rewrite filter_In, String.eqb_refl. simpl. intros [_ H]. discriminate.
  - now apply NoDup_filter.
Qed.

Lemma aggregate_NoDup data_dict : NoDup (keys (aggregate data_dict)).
Proof. rewrite keys_aggregate. apply first_occurrences_NoDup. Qed.

Lemma get_aggregate_record s d r :
  get s (aggregate_record d r) =
  if has_symbol s r then fold_symbol (get s d) r else get s d.
Proof.
  unfold aggregate_record, has_symbol, contains.
  destruct (get (symbol r) d) as [a|] eqn:E.
  - rewrite get_update. destruct (String.eqb_spec s (symbol r)) as [->|Hne].
    + now rewrite E.
    + reflexivity.
  - rewrite set_new by (unfold contains; now rewrite E).
    rewrite get_app_new. destruct (String.eqb_spec s (symbol r)) as [->|Hne].
    + now rewrite E.
    + now destruct (get s d).
Qed.

Lemma get_fold s rs : forall d,
  get s (fold_left aggregate_record rs d) =
  fold_left fold_symbol (filter (has_symbol s) rs) (get s d).
Proof.
  induction rs as [|r rs IH]; intro d; simpl; [reflexivity|].
  rewrite IH, get_aggregate_record.
  now destruct (has_symbol s r).
Qed.

Lemma fold_symbol_some rs a :
  fold_left fold_symbol rs (Some a) = Some (accumulate rs a).
Proof.
  revert a. induction rs as [|r rs IH]; intro a; simpl; [reflexivity|].
  apply IH.
Qed.

Lemma get_aggregate s data_dict :
  get s (aggregate data_dict) =
  match records_for s data_dict with
  | [] => None
  | r :: rs => Some (accumulate rs (new_accumulator r))
  end.
Proof.
  rewrite aggregate_flat, get_fold. unfold records_for. simpl.
  destruct (filter _ _) as [|r rs]; simpl; [reflexivity|].
  apply fold_symbol_some.
Qed.

(** The fields of an accumulator after more records. *)
Lemma accumulate_symbol rs a : acc_symbol (accumulate rs a) = acc_symbol a.
Proof. revert a. induction rs as [|r rs IH]; intro a; simpl; [reflexivity|]. now rewrite IH. Qed.

Lemma accumulate_company_name rs a :
  acc_company_name (accumulate rs a) = acc_company_name a.
Proof. revert a. induction rs as [|r rs IH]; intro a; simpl; [reflexivity|]. now rewrite IH. Qed.

Lemma accumulate_volume rs a :
  acc_volume (accumulate rs a) = acc_volume a + Zsum (map volume rs).
Proof.
  revert a. induction rs as [|r rs IH]; intro a; simpl; [lia|].
  rewrite IH. simpl. lia.
Qed.

Lemma accumulate_count rs a :
  count (accumulate rs a) = count a + Z.of_nat (length rs).
Proof.
  revert a. induction rs as [|r rs IH]; intro a; [simpl; lia|].
  change (accumulate (r :: rs) a) with (accumulate rs (add_record r a)).
  rewrite IH. simpl count. simpl length. lia.
Qed.

Lemma accumulate_price rs a :
  (avg_price (accumulate rs a) == avg_price a + Qsum (map price rs))%Q.
Proof.
  revert a. induction rs as [|r rs IH]; intro a.
  - simpl. ring.
  - change (accumulate (r :: rs) a) with (accumulate rs (add_record r a)).
    rewrite IH. simpl. ring.
Qed.

(** ** [sorted] and slices *)

Section SortFacts.

Context {A : Type} (key : A -> Z).

Lemma insert_by_perm x l : Permutation (insert_by key x l) (x :: l).
Proof.
  induction l as [|y l IH]; simpl; [reflexivity|].
  destruct (key x <=? key y); [reflexivity|].
  rewrite IH. apply perm_swap.
Qed.

Lemma stable_sort_perm l : Permutation (stable_sort key l) l.
Proof.
  induction l as [|x l IH]; simpl; [reflexivity|].
  rewrite insert_by_perm. now constructor.
Qed.

Lemma sorted_perm l reverse : Permutation (sorted l key reverse) l.
Proof.
  unfold sorted. destruct reverse.
  - rewrite <- Permutation_rev, stable_sort_perm. symmetry. apply Permutation_rev.
  - apply stable_sort_perm.
Qed.

Lemma insert_by_sorted x l :
  StronglySorted (ascending key) l -> StronglySorted (ascending key) (insert_by key x l).
Proof.
  induction 1 as [|y l Hs IH Hall]; simpl.
  - repeat constructor.
  - destruct (Z.leb_spec (key x) (key y)) as [Hle|Hlt].
    + constructor; [now constructor|].
      constructor; [exact Hle|].
      eapply Forall_impl; [|exact Hall]. unfold ascending. intros; lia.
    + constructor; [exact IH|].
      eapply Permutation_Forall; [symmetry; apply insert_by_perm|].
      constructor; [unfold ascending; lia | exact Hall].
Qed.

Lemma stable_sort_sorted l : StronglySorted (ascending key) (stable_sort key l).
Proof.
  induction l as [|x l IH]; simpl; [constructor | now apply insert_by_sorted].
Qed.

Lemma StronglySorted_snoc (R : A -> A -> Prop) l x :
  StronglySorted R l -> Forall (fun y => R y x) l -> StronglySorted R (l ++ [x]).
Proof.
  induction 1 as [|y l Hs IH Hall]; intro Hx; simpl.
  - repeat constructor.
  - inversion Hx; subst. constructor; [now apply IH|].
    apply Forall_app. split; [exact Hall | now constructor].
Qed.

Lemma StronglySorted_rev (R : A -> A -> Prop) l :
  StronglySorted R l -> StronglySorted (fun a b => R b a) (rev l).
Proof.
  induction 1 as [|y l Hs IH Hall]; simpl; [constructor|].
  apply StronglySorted_snoc; [exact IH | now apply Forall_rev].
Qed.

Lemma sorted_reverse_descending l :
  StronglySorted (descending key) (sorted l key true).
Proof.
  unfold sorted. apply (StronglySorted_rev (ascending key)), stable_sort_sorted.
Qed.

(** Stability: among the elements of one key, nothing moves. *)
Lemma filter_insert_by v x l :
  filter (fun a => key a =? v) (insert_by key x l) =
  filter (fun a => key a =? v) (x :: l).
Proof.
  induction l as [|y l IH]; [reflexivity|].
  simpl insert_by. destruct (Z.leb_spec (key x) (key y)) as [Hle|Hlt];
    [reflexivity|].
  simpl in *. rewrite IH.
  destruct (Z.eqb_spec (key x) v), (Z.eqb_spec (key y) v); try reflexivity.
  lia.
Qed.

Lemma filter_stable_sort v l :
  filter (fun a => key a =? v) (stable_sort key l) =
  filter (fun a => key a =? v) l.
Proof.
  induction l as [|x l IH]; [reflexivity|].
  simpl stable_sort. rewrite filter_insert_by. simpl. now rewrite IH.
Qed.

Lemma filter_sorted v l reverse :
  filter (fun a => key a =? v) (sorted l key reverse) =
  filter (fun a => key a =? v) l.
Proof.
  unfold sorted. destruct reverse.
  - now rewrite filter_rev, filter_stable_sort, filter_rev, rev_involutive.
  - apply filter_stable_sort.
Qed.

End SortFacts.

Section ListFacts.

Context {A : Type}.
Implicit Types (x y : A) (l : list A).

Lemma before_In x y l : before x y l -> In x l /\ In y l.
Proof.
  induction l as [|a l IH]; simpl; [tauto|].
  intros [[-> Hy]|H]; [tauto|]. apply IH in H. tauto.
Qed.

Lemma nth_error_before l : forall i j x y,
  nth_error l i = Some x -> nth_error l j = Some y -> (i < j)%nat ->
  before x y l.
Proof.
  induction l as [|a l IH]; intros i j x y Hi Hj Hlt.
  - destruct i; discriminate.
  - destruct j as [|j]; [lia|]. simpl in Hj. destruct i as [|i]; simpl in Hi.
    + left. split; [congruence|]. eapply nth_error_In; eauto.
    + right. apply (IH i j); auto; lia.
Qed.

Lemma firstn_In n x : forall l, In x (firstn n l) -> In x l.
Proof.
  induction n as [|n IH]; intros [|a l]; simpl; try tauto.
  intros [E|H]; [now left | right; now apply IH].
Qed.

Lemma before_firstn n x y : forall l, before x y (firstn n l) -> before x y l.
Proof.
  induction n as [|n IH]; intros [|a l]; simpl; try tauto.
  intros [[-> Hy]|H].
  - left. split; [reflexivity|]. eapply firstn_In; eauto.
  - right. now apply IH.
Qed.

Lemma before_filter_intro (p : A -> bool) x y l :
  before x y l -> p x = true -> p y = true -> before x y (filter p l).
Proof.
  intros H Hx Hy. induction l as [|a l IH]; simpl in *; [tauto|].
  destruct H as [[-> Hin]|H].
  - rewrite Hx. left. split; [reflexivity|]. apply filter_In. tauto.
  - destruct (p a); [right|]; auto.
Qed.

Lemma before_filter_elim (p : A -> bool) x y l :
  before x y (filter p l) -> before x y l.
Proof.
  induction l as [|a l IH]; simpl; [tauto|].
  destruct (p a); simpl.
  - intros [[-> Hin]|H]; [left | right; auto].
    split; [reflexivity|]. apply filter_In in Hin. tauto.
  - intro H. right. auto.
Qed.

Lemma before_map {B} (f : A -> B) x y l :
  before x y l -> before (f x) (f y) (map f l).
Proof.
  induction l as [|a l IH]; simpl; [tauto|].
  intros [[-> Hin]|H]; [left | right; auto].
  split; [reflexivity | now apply in_map].
Qed.

Lemma StronglySorted_firstn (R : A -> A -> Prop) n : forall l,
  StronglySorted R l -> StronglySorted R (firstn n l).
Proof.
  induction n as [|n IH]; intros l H; [constructor|].
  destruct H as [|a l Hs Hall]; simpl; [constructor|].
  constructor; [now apply IH|].
  apply Forall_forall. intros z Hz. apply firstn_In in Hz.
  revert z Hz. now apply Forall_forall.
Qed.

Lemma StronglySorted_adjacent (R : A -> A -> Prop) l : forall i a b,
  StronglySorted R l ->
  nth_error l i = Some a -> nth_error l (S i) = Some b -> R a b.
Proof.
  induction l as [|c l IH]; intros i a b Hs Ha Hb; [destruct i; discriminate|].
  inversion Hs as [|? ? Hs' Hall]; subst.
  destruct i as [|i]; simpl in Ha.
  - inversion Ha; subst. change (nth_error l 0 = Some b) in Hb.
    apply nth_error_In in Hb. revert b Hb. now apply Forall_forall.
  - change (nth_error l (S i) = Some b) in Hb. eapply IH; eauto.
Qed.

Lemma NoDup_firstn n : forall (l : list A), NoDup l -> NoDup (firstn n l).
Proof.
  induction n as [|n IH]; intros l H; [constructor|].
  destruct H as [|a l Ha Hnd]; simpl; [constructor|].
  constructor; [|now apply IH]. intro Hin. apply Ha. eapply firstn_In; eauto.
Qed.

Lemma slice_to_firstn (l : list A) n : exists m, slice_to l n = firstn m l.
Proof. unfold slice_to. destruct (0 <=? n); eauto. Qed.

Lemma slice_to_length (l : list A) n :
  0 < n -> Z.of_nat (length (slice_to l n)) = Z.min n (Z.of_nat (length l)).
Proof.
  intro Hn. unfold slice_to.
  destruct (Z.leb_spec 0 n); [|lia]. rewrite length_firstn. lia.
Qed.

End ListFacts.

Lemma before_first_occurrences s1 s2 rs :
  before s1 s2 (first_occurrences (map symbol rs)) ->
  (first_seen s1 rs < first_seen s2 rs)%nat.
Proof.
  induction rs as [|r rs IH]; simpl; [tauto|].
  unfold has_symbol. intros [[E Hin]|H].
  - subst s1. rewrite String.eqb_refl.
    apply filter_In in Hin. destruct Hin as [_ Hne].
    rewrite String.eqb_sym. destruct (String.eqb (symbol r) s2); [discriminate|].
    lia.
  - pose proof (before_In _ _ _ H) as [H1 H2].
    apply filter_In in H1, H2. destruct H1 as [_ H1], H2 as [_ H2].
    apply before_filter_elim in H. apply IH in H.
    rewrite (String.eqb_sym s1), (String.eqb_sym s2).
    destruct (String.eqb (symbol r) s1), (String.eqb (symbol r) s2);
      try discriminate. lia.
Qed.

(** ** The entries of [sorted_data] *)

Lemma average_prices_map (d : dict Accumulator) :
  NoDup (keys d) ->
  average_prices d = map (fun item => (fst item, set_average (snd item))) d.
Proof. intro H. exact (update_each set_average d [] H). Qed.

Lemma values_average_prices data_dict :
  values (average_prices (aggregate data_dict)) =
  map set_average (values (aggregate data_dict)).
Proof.
  rewrite average_prices_map by apply aggregate_NoDup.
  unfold values. now rewrite !map_map.
Qed.

Lemma records_for_symbol s data_dict r :
  In r (records_for s data_dict) -> symbol r = s.
Proof.
  unfold records_for, has_symbol. rewrite filter_In. intros [_ H].
  apply String.eqb_eq in H. now symmetry.
Qed.

Lemma aggregate_entry data_dict k a :
  In (k, a) (aggregate data_dict) ->
  exists r rs, records_for k data_dict = r :: rs
               /\ a = accumulate rs (new_accumulator r).
Proof.
  intro H. apply get_of_In in H; [|apply aggregate_NoDup].
  rewrite get_aggregate in H.
  destruct (records_for k data_dict) as [|r rs]; [discriminate|].
  inversion H. eauto.
Qed.

Lemma aggregate_symbol data_dict k a :
  In (k, a) (aggregate data_dict) -> acc_symbol a = k.
Proof.
  intro H. destruct (aggregate_entry _ _ _ H) as (r & rs & Hr & ->).
  rewrite accumulate_symbol. simpl.
  apply (records_for_symbol k data_dict). rewrite Hr. now left.
Qed.

Lemma symbols_aggregate data_dict :
  map acc_symbol (map set_average (values (aggregate data_dict))) =
  keys (aggregate data_dict).
Proof.
  unfold values, keys. rewrite !map_map. apply map_ext_in.
  intros [k a] H. simpl. exact (aggregate_symbol data_dict k a H).
Qed.

Lemma sorted_data_In data_dict top_n e :
  In e (sorted_data data_dict top_n) ->
  In e (map set_average (values (aggregate data_dict))).
Proof.
  unfold sorted_data. intro H.
  destruct (slice_to_firstn (sorted (values (average_prices (aggregate data_dict))) acc_volume true) top_n)
    as [m Hm].
  rewrite Hm in H. apply firstn_In in H.
  apply (Permutation_in _ (sorted_perm _ _ _)) in H.
  now rewrite values_average_prices in H.
Qed.

(** Every entry of the output is the accumulator of the records of its
    symbol, with the price total divided by the count. *)
Lemma sorted_data_entry data_dict top_n e :
  In e (sorted_data data_dict top_n) ->
  exists r rs, records_for (acc_symbol e) data_dict = r :: rs
               /\ e = set_average (accumulate rs (new_accumulator r)).
Proof.
  intro H. apply sorted_data_In in H.
  apply in_map_iff in H. destruct H as (a & <- & Ha).
  apply in_map_iff in Ha. destruct Ha as ([k a'] & Hk & Hin). simpl in Hk. subst a'.
  simpl. rewrite (aggregate_symbol _ _ _ Hin).
  destruct (aggregate_entry _ _ _ Hin) as (r & rs & Hr & ->). eauto.
Qed.

Lemma sorted_data_symbols_NoDup data_dict top_n :
  NoDup (map acc_symbol (sorted_data data_dict top_n)).
Proof.
  unfold sorted_data.
  destruct (slice_to_firstn (sorted (values (average_prices (aggregate data_dict))) acc_volume true) top_n)
    as [m ->].
  rewrite <- firstn_map. apply NoDup_firstn.
  eapply Permutation_NoDup.
  - symmetry. apply Permutation_map. apply sorted_perm.
  - rewrite values_average_prices, symbols_aggregate. apply aggregate_NoDup.
Qed.

Lemma distinct_symbols_length data_dict :
  length (keys (aggregate data_dict)) = length (distinct_symbols data_dict).
Proof.
  apply Permutation_length. apply NoDup_Permutation.
  - apply aggregate_NoDup.
  - apply NoDup_nodup.
  - intro s. unfold distinct_symbols.
    now rewrite keys_aggregate, first_occurrences_In, nodup_In.
Qed.

Lemma sorted_data_length data_dict top_n :
  0 < top_n ->
  Z.of_nat (length (sorted_data data_dict top_n)) =
  Z.min top_n (Z.of_nat (length (distinct_symbols data_dict))).
Proof.
  intro H. unfold sorted_data. rewrite slice_to_length by exact H.
  rewrite (Permutation_length (sorted_perm _ _ _)).
  rewrite values_average_prices, <- distinct_symbols_length.
  unfold values, keys. now rewrite !length_map.
Qed.

Lemma first_seen_hd s rs :
  nth_error rs (first_seen s rs) = hd_error (filter (has_symbol s) rs).
Proof.
  induction rs as [|r rs IH]; simpl; [reflexivity|].
  destruct (has_symbol s r); [reflexivity | exact IH].
Qed.

(** When no date lists a symbol twice, a symbol has as many records as
    dates. *)
Lemma filter_once s (l : list TradeRecord) :
  NoDup (map symbol l) ->
  length (filter (has_symbol s) l) = if existsb (has_symbol s) l then 1%nat else 0%nat.
Proof.
  induction l as [|r l IH]; simpl; [reflexivity|].
  intro H. inversion H as [|? ? Hr Hl]; subst.
  destruct (has_symbol s r) eqn:E; simpl.
  - unfold has_symbol in E. apply String.eqb_eq in E. subst s.
    assert (Hnone : existsb (has_symbol (symbol r)) l = false).
    { destruct (existsb (has_symbol (symbol r)) l) eqn:F; [|reflexivity].
      apply existsb_exists in F. destruct F as (r' & Hin & F).
      unfold has_symbol in F. apply String.eqb_eq in F.
      exfalso. apply Hr. rewrite F. now apply in_map. }
    rewrite IH by exact Hl. now rewrite Hnone.
  - now apply IH.
Qed.

Lemma records_as_dates s data_dict :
  (forall date_data, In date_data (values data_dict) ->
                     NoDup (map symbol date_data)) ->
  length (records_for s data_dict) = length (dates_with s data_dict).
Proof.
  unfold records_for, records_of, dates_with, keys.
  induction data_dict as [|[date l] d IH]; simpl; [reflexivity|].
  intro H. rewrite filter_app, length_app, IH by (intros; apply H; now right).
  rewrite filter_once by (apply H; now left).
  destruct (existsb (has_symbol s) l); reflexivity.
Qed.
(** ** The helper and the tools, case by case *)

Lemma retrieve_from_endpoint_cases key network url trace :
  retrieve_from_endpoint key network url trace =
  (match network {| url := url; Authorization := key |} with
   | Unreachable => Raised ConnectionError
   | Answered response =>
       if (400 <=? status_code response) && (status_code response <? 600)
       then Raised (SystemExit (HTTPError response))
       else match body response with
            | Some data => Returned (Str (json_dumps data))
            | None => Raised JSONDecodeError
            end
   end,
   trace ++ [ {| url := url; Authorization := key |} ]).
Proof.
  unfold retrieve_from_endpoint, bind, try_except, requests_get,
    raise_for_status, response_json.
  destruct (network _) as [response|]; [|reflexivity].
  destruct ((400 <=? status_code response) && (status_code response <? 600));
    [reflexivity|].
  simpl. now destruct (body response).
Qed.

Lemma get_top_companies_cases key network start_date end_date top_n trace :
  get_top_companies_by_tx_volume key network start_date end_date top_n trace =
  if 0 <? top_n
  then match retrieve_from_endpoint key network
               (most_traded_url start_date end_date top_n) trace with
       | (Returned data, trace') =>
           match data with
           | Str (json_dumps payload) =>
               match read_data_dict payload with
               | Some data_dict =>
                   (Returned (Str (json_dumps (JArr (map accumulator_json
                                      (sorted_data data_dict top_n))))), trace')
               | None => (Raised TypeError, trace')
               end
           | Json _ => (Raised TypeError, trace')
           end
       | (Raised e, trace') => (Raised e, trace')
       end
  else (Raised (AssertionError "Please enter a valid value (cannot be minus and '0')"),
        trace).
Proof.
  unfold get_top_companies_by_tx_volume, bind, py_assert.
  destruct (0 <? top_n); [|reflexivity].
  unfold ret at 1.
  destruct (retrieve_from_endpoint _ _ _ _) as [[data|e] trace']; [|reflexivity].
  destruct data as [j|[payload]]; [reflexivity|].
  unfold json_loads, ret at 1.
  now destruct (read_data_dict payload).
Qed.

(** With [top_n > 0], an answer outside 400-599 and a payload of trade
    records, the tool issues one request and returns the serialised
    [sorted_data]. *)
Lemma get_top_companies_returns key network start_date end_date top_n
    response payload data_dict trace :
  0 < top_n ->
  network {| url := most_traded_url start_date end_date top_n;
             Authorization := key |} = Answered response ->
  (status_code response < 400 \/ 600 <= status_code response) ->
  body response = Some payload ->
  read_data_dict payload = Some data_dict ->
  get_top_companies_by_tx_volume key network start_date end_date top_n trace =
  (Returned (Str (json_dumps (JArr (map accumulator_json (sorted_data data_dict top_n))))),
   trace ++ [ {| url := most_traded_url start_date end_date top_n;
                 Authorization := key |} ]).
Proof.
  intros Hn Hnet Hstatus Hbody Hread.
  rewrite get_top_companies_cases, retrieve_from_endpoint_cases, Hnet.
  apply Z.ltb_lt in Hn. rewrite Hn.
  assert ((400 <=? status_code response) && (status_code response <? 600) = false) as ->.
  { apply andb_false_iff. rewrite Z.leb_gt, Z.ltb_ge. lia. }
  now rewrite Hbody, Hread.
Qed.

(** ** Prices in the arithmetic of Python *)

Lemma py_for_each_app {A B} (body : A -> B -> Py.result A) l1 l2 a :
  Py.for_each body (l1 ++ l2) a =
  Py.bind (Py.for_each body l1 a) (Py.for_each body l2).
Proof.
  revert a. induction l1 as [|b l1 IH]; intro a; simpl; [reflexivity|].
  destruct (body a b); simpl; [apply IH | reflexivity].
Qed.

Lemma py_for_each_concat {A B} (body : A -> B -> Py.result A) ls a :
  Py.for_each (fun a l => Py.for_each body l a) ls a =
  Py.for_each body (concat ls) a.
Proof.
  revert a. induction ls as [|l ls IH]; intro a; simpl; [reflexivity|].
  rewrite py_for_each_app. destruct (Py.for_each body l a); simpl;
    [apply IH | reflexivity].
Qed.

Lemma py_aggregate_flat data_dict :
  Py.aggregate data_dict =
  Py.for_each Py.aggregate_record (Py.records_of data_dict) [].
Proof. apply py_for_each_concat. Qed.

Lemma py_get_aggregate_record s d r d' :
  Py.aggregate_record d r = Py.Value d' ->
  if Py.has_symbol s r
  then Py.fold_symbol (get s d) r = Py.Value (get s d')
  else get s d' = get s d.
Proof.
  unfold Py.aggregate_record, Py.has_symbol.
  destruct (get (Py.symbol r) d) as [a|] eqn:E.
  - destruct (Py.add_record r a) as [a'|] eqn:Ha; simpl; [|discriminate].
    intro H. inversion H; subst d'. rewrite get_update.
    destruct (String.eqb_spec s (Py.symbol r)) as [->|]; [|reflexivity].
    rewrite E. simpl. now rewrite Ha.
  - intro H. inversion H; subst d'.
    rewrite set_new by (unfold contains; now rewrite E).
    rewrite get_app_new.
    destruct (String.eqb_spec s (Py.symbol r)) as [->|].
    + now rewrite E.
    + now destruct (get s d).
Qed.

Lemma py_get_for_each s rs : forall d d',
  Py.for_each Py.aggregate_record rs d = Py.Value d' ->
  Py.for_each Py.fold_symbol (filter (Py.has_symbol s) rs) (get s d) =
  Py.Value (get s d').
Proof.
  induction rs as [|r rs IH]; intros d d'; simpl.
  - intro H. now inversion H.
  - destruct (Py.aggregate_record d r) as [d1|] eqn:E; simpl; [|discriminate].
    intro H. apply IH in H. pose proof (py_get_aggregate_record s _ _ _ E) as Hs.
    destruct (Py.has_symbol s r); simpl.
    + now rewrite Hs.
    + now rewrite <- Hs.
Qed.

Lemma py_fold_symbol_some rs : forall a o,
  Py.for_each Py.fold_symbol rs (Some a) = Py.Value o ->
  exists a', o = Some a'
             /\ Py.sum_prices (Py.avg_price a) (map Py.price rs) =
                Py.Value (Py.avg_price a')
             /\ Py.count a' = Py.count a + Z.of_nat (length rs)
             /\ Py.acc_symbol a' = Py.acc_symbol a.
Proof.
  unfold Py.sum_prices. induction rs as [|r rs IH]; intros a o; simpl.
  - intro H. inversion H. exists a. repeat split; lia.
  - unfold Py.add_record.
    destruct (Py.add (Py.avg_price a) (Py.price r)) as [total|] eqn:Hadd; simpl;
      [|discriminate].
    intro H. apply IH in H. destruct H as (a' & -> & Hsum & Hcount & Hsym).
    exists a'. simpl in *. repeat split; auto. lia.
Qed.

Lemma py_fold_symbol_returns rs : forall a v,
  Py.sum_prices (Py.avg_price a) (map Py.price rs) = Py.Value v ->
  exists a', Py.for_each Py.fold_symbol rs (Some a) = Py.Value (Some a').
Proof.
  unfold Py.sum_prices. induction rs as [|r rs IH]; intros a v; simpl.
  - eauto.
  - unfold Py.add_record.
    destruct (Py.add (Py.avg_price a) (Py.price r)) as [total|]; simpl;
      [|discriminate].
    intro H. eapply IH. simpl. exact H.
Qed.

Lemma py_keys_aggregate_record d r d' :
  Py.aggregate_record d r = Py.Value d' ->
  NoDup (keys d) -> NoDup (keys d').
Proof.
  unfold Py.aggregate_record.
  destruct (get (Py.symbol r) d) as [a|] eqn:E.
  - destruct (Py.add_record r a); simpl; [|discriminate].
    intro H. inversion H. now rewrite keys_update.
  - intro H. inversion H.
    rewrite set_new by (unfold contains; now rewrite E).
    unfold keys. rewrite map_app. simpl. intro Hnd.
    apply get_none_iff in E. apply NoDup_rev in Hnd.
    rewrite <- (rev_involutive (map fst d ++ _)). apply NoDup_rev.
    rewrite rev_app_distr. simpl. constructor; [|exact Hnd].
    now rewrite <- in_rev.
Qed.

Lemma py_NoDup_for_each rs : forall d d',
  Py.for_each Py.aggregate_record rs d = Py.Value d' ->
  NoDup (keys d) -> NoDup (keys d').
Proof.
  induction rs as [|r rs IH]; intros d d'; simpl.
  - intro H. now inversion H.
  - destruct (Py.aggregate_record d r) as [d1|] eqn:E; simpl; [|discriminate].
    intros H Hnd. eapply IH; eauto. eapply py_keys_aggregate_record; eauto.
Qed.

(** What is stored under a symbol once the loops are over: the prices of
    its records added from the left, and their number. *)
Lemma py_aggregate_entry data_dict aggregated_data k a :
  Py.aggregate data_dict = Py.Value aggregated_data ->
  In (k, a) aggregated_data ->
  exists r rs,
    filter (Py.has_symbol k) (Py.records_of data_dict) = r :: rs
    /\ Py.sum_prices (Py.price r) (map Py.price rs) = Py.Value (Py.avg_price a)
    /\ Py.count a = Z.of_nat (length (r :: rs))
    /\ Py.acc_symbol a = k.
Proof.
  rewrite py_aggregate_flat. intros Hagg Hin.
  apply get_of_In in Hin;
    [|eapply py_NoDup_for_each; [exact Hagg | constructor]].
  pose proof (py_get_for_each k _ _ _ Hagg) as H. rewrite Hin in H. simpl in H.
  destruct (filter (Py.has_symbol k) (Py.records_of data_dict)) as [|r rs] eqn:Hf;
    [discriminate|].
  simpl in H. apply py_fold_symbol_some in H.
  destruct H as (a' & Ha & Hsum & Hcount & Hsym). inversion Ha; subst a'.
  exists r, rs. repeat split; auto.
  - rewrite Hcount. change (Py.count (Py.new_accumulator r)) with 1.
    change (length (r :: rs)) with (S (length rs)). lia.
  - rewrite Hsym. simpl.
    assert (Hr : In r (filter (Py.has_symbol k) (Py.records_of data_dict)))
      by (rewrite Hf; now left).
    apply filter_In in Hr. destruct Hr as [_ Hr]. unfold Py.has_symbol in Hr.
    apply String.eqb_eq in Hr. now symmetry.
Qed.

Lemma update_middle {V} k (f : V -> V) v (done todo : dict V) :
  ~ In k (keys done) ->
  update k f (done ++ (k, v) :: todo) = done ++ (k, f v) :: todo.
Proof.
  induction done as [|[k' v'] done IH]; simpl; intro Hk.
  - now rewrite String.eqb_refl.
  - destruct (String.eqb_spec k k') as [->|Hne]; [exfalso; auto|].
    f_equal. apply IH. intro H. apply Hk. now right.
Qed.

(** The loop over the items changes every value once, or raises. *)
Lemma py_average_each todo : forall done d',
  NoDup (keys (done ++ todo)) ->
  Py.for_each
    (fun d item =>
       Py.bind (Py.set_average (snd item)) (fun data =>
       Py.Value (update (fst item) (fun _ => data) d)))
    todo (done ++ todo) = Py.Value d' ->
  exists todo',
    d' = done ++ todo'
    /\ Forall2 (fun item item' =>
                  fst item' = fst item
                  /\ Py.set_average (snd item) = Py.Value (snd item'))
               todo todo'.
Proof.
  induction todo as [|[k v] todo IH]; intros done d' Hnd; simpl.
  - intro H. inversion H. exists []. split; [reflexivity | constructor].
  - destruct (Py.set_average v) as [data|] eqn:Hv; simpl; [|discriminate].
    assert (Hk : ~ In k (keys done)).
    { unfold keys in *. rewrite map_app in Hnd. simpl in Hnd.
      apply NoDup_remove_2 in Hnd. intro H. apply Hnd. apply in_or_app. now left. }
    rewrite update_middle by exact Hk.
    change (done ++ (k, data) :: todo) with (done ++ [(k, data)] ++ todo).
    rewrite app_assoc. intro H. apply IH in H.
    + destruct H as (todo' & -> & Hall). exists ((k, data) :: todo').
      split; [now rewrite <- app_assoc|]. constructor; auto.
    + unfold keys in *. rewrite <- app_assoc. simpl.
      rewrite !map_app in *. exact Hnd.
Qed.

Lemma py_average_returns todo : forall d,
  (forall item, In item todo -> exists data, Py.set_average (snd item) = Py.Value data) ->
  exists d',
    Py.for_each
      (fun d item =>
         Py.bind (Py.set_average (snd item)) (fun data =>
         Py.Value (update (fst item) (fun _ => data) d)))
      todo d = Py.Value d'.
Proof.
  induction todo as [|item todo IH]; intros d H; simpl; [eauto|].
  destruct (H item (or_introl eq_refl)) as [data ->]. simpl.
  apply IH. intros item' Hin. apply H. now right.
Qed.

Lemma Forall2_In_r {A B} (R : A -> B -> Prop) l l' y :
  Forall2 R l l' -> In y l' -> exists x, In x l /\ R x y.
Proof.
  induction 1 as [|x y' l l' HR Hall IH]; simpl; [tauto|].
  intros [<-|Hin]; [eauto|]. destruct (IH Hin) as (x' & Hx & HR'). eauto.
Qed.

(** Every entry of the output holds the Python mean of the prices of its
    symbol. *)
Lemma py_sorted_data_entry data_dict top_n out e :
  Py.sorted_data data_dict top_n = Py.Value out ->
  In e out ->
  Py.python_mean (Py.prices_for (Py.acc_symbol e) data_dict) =
  Py.Value (Py.avg_price e).
Proof.
  unfold Py.sorted_data.
  destruct (Py.aggregate data_dict) as [agg|] eqn:Hagg; cbn [Py.bind];
    [|discriminate].
  destruct (Py.average_prices agg) as [averaged|] eqn:Hav; cbn [Py.bind];
    [|discriminate].
  intros H He.
  assert (Hout : out = slice_to (sorted (values averaged) Py.acc_volume true) top_n)
    by congruence.
  subst out. clear H.
  destruct (slice_to_firstn (sorted (values averaged) Py.acc_volume true) top_n)
    as [m Hm].
  rewrite Hm in He. apply firstn_In in He.
  apply (Permutation_in _ (sorted_perm _ _ _)) in He.
  assert (Hnd : NoDup (keys agg)).
  { rewrite py_aggregate_flat in Hagg.
    eapply py_NoDup_for_each; [exact Hagg | constructor]. }
  destruct (py_average_each agg [] averaged Hnd Hav) as (todo' & -> & Hall).
  simpl in He. apply in_map_iff in He. destruct He as ([k' e'] & He' & Hin).
  simpl in He'. subst e'.
  destruct (Forall2_In_r _ _ _ _ Hall Hin) as ([k a] & Ha & Hk & Hset).
  simpl in Hk, Hset. subst k'.
  destruct (py_aggregate_entry _ _ _ _ Hagg Ha) as (r & rs & Hf & Hsum & Hcount & Hsym).
  unfold Py.set_average in Hset.
  destruct (Py.truediv (Py.avg_price a) (Py.count a)) as [average|] eqn:Hdiv;
    simpl in Hset; [|discriminate].
  inversion Hset; subst e. simpl. rewrite Hsym.
  unfold Py.prices_for. rewrite Hf.
  change (map Py.price (r :: rs)) with (Py.price r :: map Py.price rs).
  unfold Py.python_mean. rewrite Hsum. cbn [Py.bind].
  change (length (Py.price r :: map Py.price rs)) with (S (length (map Py.price rs))).
  rewrite length_map. change (S (length rs)) with (length (r :: rs)).
  now rewrite <- Hcount.
Qed.

(** The aggregation returns when the Python mean of the prices of every
    symbol can be taken. *)
Lemma py_sorted_data_returns data_dict top_n :
  (forall s, In s (map Py.symbol (Py.records_of data_dict)) ->
             exists v, Py.python_mean (Py.prices_for s data_dict) = Py.Value v) ->
  exists out, Py.sorted_data data_dict top_n = Py.Value out.
Proof.
  intro Hmean.
  assert (Hloop : forall rs d,
             (forall s, exists o,
                 Py.for_each Py.fold_symbol (filter (Py.has_symbol s) rs) (get s d)
                 = Py.Value o) ->
             exists d', Py.for_each Py.aggregate_record rs d = Py.Value d').
  { induction rs as [|r rs IH]; intros d H; simpl; [eauto|].
    assert (Hstep : exists d1, Py.aggregate_record d r = Py.Value d1).
    { destruct (H (Py.symbol r)) as [o Ho]. simpl in Ho.
      unfold Py.has_symbol at 1 in Ho. rewrite String.eqb_refl in Ho. simpl in Ho.
      unfold Py.aggregate_record.
      destruct (get (Py.symbol r) d) as [a|]; [|eauto].
      simpl in Ho. destruct (Py.add_record r a); simpl in *; [eauto | discriminate]. }
    destruct Hstep as [d1 Hd1]. rewrite Hd1. simpl. apply IH. intro s.
    destruct (H s) as [o Ho]. simpl in Ho.
    pose proof (py_get_aggregate_record s _ _ _ Hd1) as Hs.
    destruct (Py.has_symbol s r); simpl in Ho.
    - rewrite Hs in Ho. simpl in Ho. eauto.
    - rewrite Hs. eauto. }
  assert (Hagg : exists agg, Py.aggregate data_dict = Py.Value agg).
  { rewrite py_aggregate_flat. apply Hloop. intro s. simpl.
    destruct (filter (Py.has_symbol s) (Py.records_of data_dict)) as [|r rs] eqn:Hf;
      [simpl; eauto|].
    assert (Hr : In r (filter (Py.has_symbol s) (Py.records_of data_dict)))
      by (rewrite Hf; now left).
    apply filter_In in Hr. destruct Hr as [Hr Hs]. unfold Py.has_symbol in Hs.
    apply String.eqb_eq in Hs.
    destruct (Hmean s) as [v Hv]; [subst s; now apply in_map|].
    unfold Py.prices_for in Hv. rewrite Hf in Hv.
    change (map Py.price (r :: rs)) with (Py.price r :: map Py.price rs) in Hv.
    unfold Py.python_mean in Hv.
    destruct (Py.sum_prices (Py.price r) (map Py.price rs)) as [total|] eqn:Hsum;
      [|discriminate].
    simpl. destruct (py_fold_symbol_returns rs (Py.new_accumulator r) total Hsum)
      as [a' Ha']. eauto. }
  destruct Hagg as [agg Hagg]. unfold Py.sorted_data. rewrite Hagg. simpl.
  assert (Hav : exists averaged, Py.average_prices agg = Py.Value averaged).
  { apply py_average_returns. intros [k a] Hin. simpl.
    destruct (py_aggregate_entry _ _ _ _ Hagg Hin) as (r & rs & Hf & Hsum & Hcount & Hsym).
    destruct (Hmean k) as [v Hv].
    { assert (Hr : In r (filter (Py.has_symbol k) (Py.records_of data_dict)))
        by (rewrite Hf; now left).
      apply filter_In in Hr. destruct Hr as [Hr Hs]. unfold Py.has_symbol in Hs.
      apply String.eqb_eq in Hs. rewrite Hs. now apply in_map. }
    unfold Py.prices_for in Hv. rewrite Hf in Hv.
    change (map Py.price (r :: rs)) with (Py.price r :: map Py.price rs) in Hv.
    unfold Py.python_mean in Hv.
    rewrite Hsum in Hv. cbn [Py.bind] in Hv.
    change (length (Py.price r :: map Py.price rs))
      with (S (length (map Py.price rs))) in Hv.
    rewrite length_map in Hv. change (S (length rs)) with (length (r :: rs)) in Hv.
    rewrite <- Hcount in Hv. unfold Py.set_average. rewrite Hv. simpl. eauto. }
  destruct Hav as [averaged ->]. simpl. eauto.
Qed.

(** * The claims *)

(** C1, as the claim states it, fails: [avg_price] is a [float] and holds
    the mean only up to rounding. One record with the integer price
    2^53 + 1 gives 9007199254740992.0, which is not that price; the prices
    1, 1 and 2 give 1.3333333333333333, which is not 4/3. *)
Lemma avg_price_is_not_the_exact_mean :
  (exists e q,
      Py.sorted_data Py.large_price 5 = Py.Value [e]
      /\ Py.prices_for (Py.acc_symbol e) Py.large_price = [Py.Int 9007199254740993]
      /\ Py.avg_price e = Py.Float 9007199254740992
      /\ Py.exact (Py.avg_price e) = Some q
      /\ ~ (q == inject_Z 9007199254740993)%Q)
  /\ (exists e q q',
        Py.sorted_data Py.thirds 5 = Py.Value [e]
        /\ Py.prices_for (Py.acc_symbol e) Py.thirds = [Py.Int 1; Py.Int 1; Py.Int 2]
        /\ Py.avg_price e = Py.Float 0x1.5555555555555p+0
        /\ Py.exact (Py.avg_price e) = Some q
        /\ Py.exact_mean (Py.prices_for (Py.acc_symbol e) Py.thirds) = Some q'
        /\ (q' == 4 # 3)%Q
        /\ ~ (q == q')%Q).
Proof.
  split.
  - eexists. eexists. split; [vm_compute; reflexivity|].
    split; [reflexivity|]. split; [reflexivity|].
    split; [vm_compute; reflexivity|].
    unfold Qeq. vm_compute. discriminate.
  - eexists. eexists. eexists. split; [vm_compute; reflexivity|].
    split; [reflexivity|]. split; [reflexivity|].
    split; [vm_compute; reflexivity|].
    split; [vm_compute; reflexivity|].
    split; unfold Qeq; vm_compute; [reflexivity | discriminate].
Qed.

(** C1, amended. When the aggregation returns, the [avg_price] of an
    output entry is what Python computes for [(p1 + ... + pK) / K] on the
    prices of all records of its symbol: the prices added from the left,
    in input order, with the [+] of [int] and [float], and the total
    divided by their number with [/]. No volume enters, so it is the
    unweighted mean, up to the rounding of [float]. For a symbol with a
    single record it is [price / 1]. The aggregation returns unless one of
    these additions or divisions raises [OverflowError]. *)
Theorem avg_price_is_python_mean data_dict top_n :
  ((forall s, In s (map Py.symbol (Py.records_of data_dict)) ->
              exists v, Py.python_mean (Py.prices_for s data_dict) = Py.Value v) ->
   exists out, Py.sorted_data data_dict top_n = Py.Value out)
  /\ (forall out e,
        Py.sorted_data data_dict top_n = Py.Value out ->
        In e out ->
        Py.python_mean (Py.prices_for (Py.acc_symbol e) data_dict) =
        Py.Value (Py.avg_price e)
        /\ (forall p, Py.prices_for (Py.acc_symbol e) data_dict = [p] ->
                      Py.truediv p 1 = Py.Value (Py.avg_price e))).
Proof.
  split; [apply py_sorted_data_returns|].
  intros out e Hout He.
  pose proof (py_sorted_data_entry _ _ _ _ Hout He) as Hmean.
  split; [exact Hmean|].
  intros p Hp. rewrite Hp in Hmean. exact Hmean.
Qed.

Lemma avg_price_is_python_mean_witness :
  Py.sorted_data Py.scenario 2 = Py.Value [Py.scenario_AAAA; Py.scenario_BBBB]
  /\ Py.python_mean (Py.prices_for (Py.acc_symbol Py.scenario_AAAA) Py.scenario) =
     Py.Value (Py.avg_price Py.scenario_AAAA)
  /\ Py.truediv (Py.Int 20) 1 = Py.Value (Py.avg_price Py.scenario_BBBB).
Proof.
  assert (Hout : Py.sorted_data Py.scenario 2 =
                 Py.Value [Py.scenario_AAAA; Py.scenario_BBBB])
    by (vm_compute; reflexivity).
  split; [exact Hout|].
  destruct (avg_price_is_python_mean Py.scenario 2) as [_ H].
  split.
  - exact (proj1 (H _ Py.scenario_AAAA Hout (or_introl eq_refl))).
  - exact (proj2 (H _ Py.scenario_BBBB Hout (or_intror (or_introl eq_refl)))
             (Py.Int 20) eq_refl).
Defined.

(** C2. The output is in descending order of total volume: of two
    adjacent entries the earlier has a summed volume at least that of the
    later, the volume of an entry being the sum of the volumes of the
    records of its symbol. *)
Theorem sorted_data_descending data_dict top_n i e1 e2 :
  nth_error (sorted_data data_dict top_n) i = Some e1 ->
  nth_error (sorted_data data_dict top_n) (S i) = Some e2 ->
  acc_volume e2 <= acc_volume e1
  /\ acc_volume e1 = Zsum (map volume (records_for (acc_symbol e1) data_dict))
  /\ acc_volume e2 = Zsum (map volume (records_for (acc_symbol e2) data_dict)).
Proof.
  intros H1 H2.
  assert (Hsum : forall e, In e (sorted_data data_dict top_n) ->
            acc_volume e = Zsum (map volume (records_for (acc_symbol e) data_dict))).
  { intros e He. destruct (sorted_data_entry _ _ _ He) as (r & rs & -> & ->).
    simpl. now rewrite accumulate_volume. }
  split; [|split; apply Hsum; eapply nth_error_In; eauto].
  assert (Hs : StronglySorted (descending acc_volume) (sorted_data data_dict top_n)).
  { unfold sorted_data.
    destruct (slice_to_firstn (sorted (values (average_prices (aggregate data_dict))) acc_volume true) top_n)
      as [m ->].
    apply StronglySorted_firstn, sorted_reverse_descending. }
  exact (StronglySorted_adjacent _ _ _ _ _ Hs H1 H2).
Qed.

Lemma sorted_data_descending_witness :
  acc_volume scenario_BBBB <= acc_volume scenario_AAAA
  /\ acc_volume scenario_AAAA =
     Zsum (map volume (records_for (acc_symbol scenario_AAAA) scenario))
  /\ acc_volume scenario_BBBB =
     Zsum (map volume (records_for (acc_symbol scenario_BBBB) scenario)).
Proof.
  apply (sorted_data_descending scenario 2 0 scenario_AAAA scenario_BBBB);
    vm_compute; reflexivity.
Defined.

(** C3. With [top_n > 0], which the assertion of the tool guarantees, the
    output has at most one entry per symbol, every entry is for a symbol
    of the input, and the length is the minimum of [top_n] and the number
    of distinct symbols; an empty mapping gives an empty list, and the
    tool then returns the serialised empty list and raises nothing. *)
Theorem one_entry_per_symbol_top_n data_dict top_n :
  0 < top_n ->
  NoDup (map acc_symbol (sorted_data data_dict top_n))
  /\ (forall e, In e (sorted_data data_dict top_n) ->
                In (acc_symbol e) (distinct_symbols data_dict))
  /\ Z.of_nat (length (sorted_data data_dict top_n)) =
     Z.min top_n (Z.of_nat (length (distinct_symbols data_dict)))
  /\ sorted_data [] top_n = []
  /\ (forall key network start_date end_date trace,
        (forall request,
            network request = Answered {| status_code := 200; body := Some (JObj []) |}) ->
        fst (get_top_companies_by_tx_volume key network start_date end_date top_n trace) =
        Returned (Str (json_dumps (JArr [])))).
Proof.
  intro Hn. split; [apply sorted_data_symbols_NoDup|].
  split.
  { intros e He. destruct (sorted_data_entry _ _ _ He) as (r & rs & Hr & _).
    unfold distinct_symbols. apply nodup_In.
    assert (Hin : In r (records_for (acc_symbol e) data_dict)) by (rewrite Hr; now left).
    rewrite <- (records_for_symbol _ _ _ Hin).
    apply in_map. unfold records_for in Hin. apply filter_In in Hin. tauto. }
  split; [now apply sorted_data_length|].
  assert (Hempty : sorted_data [] top_n = []).
  { unfold sorted_data, slice_to. simpl. destruct (0 <=? top_n); now rewrite firstn_nil. }
  split; [exact Hempty|].
  intros key network start_date end_date trace Hnet.
  erewrite get_top_companies_returns with (data_dict := []);
    [ simpl; now rewrite Hempty | exact Hn | apply Hnet | simpl; lia
    | reflexivity | reflexivity ].
Qed.

Lemma one_entry_per_symbol_top_n_witness :
  0 < 1
  /\ Z.of_nat (length (sorted_data scenario 1)) =
     Z.min 1 (Z.of_nat (length (distinct_symbols scenario)))
  /\ fst (get_top_companies_by_tx_volume "key" always_empty "2024-01-01" "2024-01-01" 1 []) =
     Returned (Str (json_dumps (JArr []))).
Proof.
  assert (H : 0 < 1) by lia.
  split; [exact H|].
  destruct (one_entry_per_symbol_top_n scenario 1 H) as (_ & _ & Hlen & _ & Htool).
  split; [exact Hlen|].
  apply Htool. intro request. reflexivity.
Defined.

(** C5, as the claim states it, fails: two records of one symbol on one
    date give a count of 2, and one date contributes. *)
Lemma count_is_not_number_of_dates :
  map count (sorted_data same_date_twice 5) = [2]
  /\ map (fun e => Z.of_nat (length (dates_with (acc_symbol e) same_date_twice)))
         (sorted_data same_date_twice 5) = [1].
Proof. split; reflexivity. Qed.

(** C5, amended. The [count] of an output entry is the number of records
    of its symbol over all dates, every occurrence counted; it is the
    number of dates that list the symbol when no date lists a symbol
    twice. *)
Theorem count_is_number_of_records data_dict top_n e :
  In e (sorted_data data_dict top_n) ->
  count e = Z.of_nat (length (records_for (acc_symbol e) data_dict))
  /\ ((forall date_data, In date_data (values data_dict) ->
                         NoDup (map symbol date_data)) ->
      count e = Z.of_nat (length (dates_with (acc_symbol e) data_dict))).
Proof.
  intro H. destruct (sorted_data_entry _ _ _ H) as (r & rs & Hr & He).
  assert (Hc : count e = Z.of_nat (length (records_for (acc_symbol e) data_dict))).
  { rewrite Hr. rewrite He at 1.
    change (count (set_average ?a)) with (count a).
    rewrite accumulate_count.
    change (count (new_accumulator r)) with 1.
    change (length (r :: rs)) with (S (length rs)). lia. }
  split; [exact Hc|].
  intro Hnd. rewrite Hc. f_equal. now apply records_as_dates.
Qed.

Lemma count_is_number_of_records_witness :
  In scenario_AAAA (sorted_data scenario 2)
  /\ count scenario_AAAA =
     Z.of_nat (length (records_for (acc_symbol scenario_AAAA) scenario))
  /\ count scenario_AAAA =
     Z.of_nat (length (dates_with (acc_symbol scenario_AAAA) scenario)).
Proof.
  assert (H : In scenario_AAAA (sorted_data scenario 2))
    by (vm_compute; left; reflexivity).
  split; [exact H|].
  destruct (count_is_number_of_records scenario 2 scenario_AAAA H) as [H1 H2].
  split; [exact H1|]. apply H2.
  intros date_data [<-|[<-|[]]]; vm_compute; repeat constructor;
    simpl; intuition discriminate.
Defined.

(** C10. Output entries of equal total volume stand in the order in which
    their symbols were first seen in the input, and the [company_name] of
    an entry is that of the first record of its symbol. *)
Theorem ties_in_first_seen_order data_dict top_n :
  (forall i j e1 e2,
      nth_error (sorted_data data_dict top_n) i = Some e1 ->
      nth_error (sorted_data data_dict top_n) j = Some e2 ->
      (i < j)%nat ->
      acc_volume e1 = acc_volume e2 ->
      (first_seen (acc_symbol e1) (records_of data_dict) <
       first_seen (acc_symbol e2) (records_of data_dict))%nat)
  /\ (forall e,
        In e (sorted_data data_dict top_n) ->
        exists r,
          nth_error (records_of data_dict)
                    (first_seen (acc_symbol e) (records_of data_dict)) = Some r
          /\ symbol r = acc_symbol e
          /\ acc_company_name e = company_name r).
Proof.
  split.
  - intros i j e1 e2 H1 H2 Hlt Hvol.
    apply before_first_occurrences. rewrite <- keys_aggregate, <- symbols_aggregate.
    apply before_map.
    apply (before_filter_elim (fun a => acc_volume a =? acc_volume e1)).
    rewrite <- values_average_prices.
    rewrite <- (filter_sorted acc_volume (acc_volume e1) _ true).
    apply before_filter_intro; [| apply Z.eqb_refl | rewrite Hvol; apply Z.eqb_refl].
    pose proof (nth_error_before _ _ _ _ _ H1 H2 Hlt) as Hb.
    unfold sorted_data in Hb.
    destruct (slice_to_firstn (sorted (values (average_prices (aggregate data_dict))) acc_volume true) top_n)
      as [m Hm].
    rewrite Hm in Hb. now apply before_firstn in Hb.
  - intros e He. destruct (sorted_data_entry _ _ _ He) as (r & rs & Hr & Hacc).
    exists r. rewrite first_seen_hd. fold (records_for (acc_symbol e) data_dict).
    rewrite Hr. split; [reflexivity|]. split.
    + apply (records_for_symbol _ data_dict). rewrite Hr. now left.
    + rewrite Hacc. simpl. now rewrite accumulate_company_name.
Qed.

Lemma ties_in_first_seen_order_witness :
  (first_seen "BBBB" (records_of tie) < first_seen "AAAA" (records_of tie))%nat.
Proof.
  apply (proj1 (ties_in_first_seen_order tie 2) 0%nat 1%nat tie_BBBB tie_AAAA);
    vm_compute; reflexivity.
Defined.

(** C6. With [top_n <= 0] the tool raises the [AssertionError] of its
    first line and issues no request; with [top_n > 0] the assertion
    passes: the request is issued and what the tool then raises, if
    anything, is no [AssertionError]. *)
Theorem top_n_precondition key network start_date end_date top_n trace :
  (top_n <= 0 ->
   get_top_companies_by_tx_volume key network start_date end_date top_n trace =
   (Raised (AssertionError "Please enter a valid value (cannot be minus and '0')"),
    trace))
  /\ (0 < top_n ->
      snd (get_top_companies_by_tx_volume key network start_date end_date top_n trace) =
      trace ++ [ {| url := most_traded_url start_date end_date top_n;
                    Authorization := key |} ]
      /\ forall message,
           fst (get_top_companies_by_tx_volume key network start_date end_date top_n trace)
           <> Raised (AssertionError message)).
Proof.
  rewrite get_top_companies_cases, retrieve_from_endpoint_cases. split.
  - intro H. apply Z.ltb_ge in H. now rewrite H.
  - intro H. apply Z.ltb_lt in H. rewrite H.
    destruct (network _) as [response|].
    + destruct ((400 <=? status_code response) && (status_code response <? 600)).
      * split; [reflexivity | discriminate].
      * destruct (body response) as [payload|].
        -- destruct (read_data_dict payload); split; try reflexivity; discriminate.
        -- split; [reflexivity | discriminate].
    + split; [reflexivity | discriminate].
Qed.

Lemma top_n_precondition_witness :
  get_top_companies_by_tx_volume "key" always_empty "2024-01-01" "2024-01-02" 0 [] =
  (Raised (AssertionError "Please enter a valid value (cannot be minus and '0')"), [])
  /\ snd (get_top_companies_by_tx_volume "key" always_empty "2024-01-01" "2024-01-02"
            default_top_n []) =
     [ {| url := most_traded_url "2024-01-01" "2024-01-02" default_top_n;
          Authorization := "key" |} ].
Proof.
  split.
  - apply (proj1 (top_n_precondition "key" always_empty "2024-01-01" "2024-01-02" 0 [])).
    lia.
  - apply (proj2 (top_n_precondition "key" always_empty "2024-01-01" "2024-01-02"
                    default_top_n [])).
    reflexivity.
Defined.

Lemma get_company_report_cases key network stock sections trace :
  get_company_report key network stock sections trace =
  if list_contains sections valid_sections
  then if Nat.eqb (String.length stock) 4
       then retrieve_from_endpoint key network (company_report_url stock sections) trace
       else (Raised (AssertionError "Symbol saham harus 4 digit, e.g BBRI"), trace)
  else (Raised (AssertionError "Please specify a section from the documentation"), trace).
Proof.
  unfold get_company_report, bind, py_assert.
  destruct (list_contains sections valid_sections); [|reflexivity].
  unfold ret at 1. now destruct (Nat.eqb (String.length stock) 4).
Qed.

(** C7. A stock symbol whose length is not 4, or a section that is not one
    of the eight names, makes [get_company_report] raise an
    [AssertionError] with no request issued. Both are checked: a wrong
    section gives the message about sections, and with a right section a
    wrong length gives the message about the symbol. *)
Theorem company_report_preconditions key network stock sections trace :
  (String.length stock <> 4%nat \/ ~ In sections valid_sections ->
   exists message,
     get_company_report key network stock sections trace =
     (Raised (AssertionError message), trace))
  /\ (~ In sections valid_sections ->
      get_company_report key network stock sections trace =
      (Raised (AssertionError "Please specify a section from the documentation"),
       trace))
  /\ (In sections valid_sections -> String.length stock <> 4%nat ->
      get_company_report key network stock sections trace =
      (Raised (AssertionError "Symbol saham harus 4 digit, e.g BBRI"), trace)).
Proof.
  rewrite get_company_report_cases.
  destruct (list_contains sections valid_sections) eqn:Hs.
  - apply list_contains_iff in Hs.
    destruct (Nat.eqb_spec (String.length stock) 4) as [Hl|Hl].
    + split; [intros [H|H]; contradiction|].
      split; intros; contradiction.
    + split; [eauto|]. split; [intros; contradiction | reflexivity].
  - split; [eauto|]. split; [reflexivity|].
    intro H. apply list_contains_iff in H. congruence.
Qed.

Lemma company_report_preconditions_witness :
  (exists message,
      get_company_report "key" always_empty "BBR" "overview" [] =
      (Raised (AssertionError message), []))
  /\ get_company_report "key" always_empty "BBRI" "summary" [] =
     (Raised (AssertionError "Please specify a section from the documentation"), [])
  /\ get_company_report "key" always_empty "BBR" "overview" [] =
     (Raised (AssertionError "Symbol saham harus 4 digit, e.g BBRI"), []).
Proof.
  split; [|split].
  - apply (proj1 (company_report_preconditions "key" always_empty "BBR" "overview" [])).
    left. simpl. discriminate.
  - apply (proj1 (proj2 (company_report_preconditions "key" always_empty "BBRI" "summary" []))).
    simpl. intuition discriminate.
  - apply (proj2 (proj2 (company_report_preconditions "key" always_empty "BBR" "overview" []))).
    + simpl. now left.
    + simpl. discriminate.
Defined.

(** C8, as the claim states it, fails: for a 200 answer whose body is the
    empty object the helper returns the [str] made by [json.dumps], not
    the parsed object. *)
Lemma retrieve_returns_text :
  fst (retrieve_from_endpoint "key" always_empty "https://api.sectors.app/v1/daily/BBRI/" [])
  = Returned (Str (json_dumps (JObj [])))
  /\ fst (retrieve_from_endpoint "key" always_empty "https://api.sectors.app/v1/daily/BBRI/" [])
     <> Returned (Json (JObj [])).
Proof. split; [reflexivity | discriminate]. Qed.

(** C8, amended. On a 2xx answer whose body parses as JSON,
    [retrieve_from_endpoint] issues one request carrying the key and
    returns the [json.dumps] text of the parsed payload; [json.loads] of
    that text is the payload. *)
Theorem retrieve_returns_serialised_payload key network url response data trace :
  network {| url := url; Authorization := key |} = Answered response ->
  200 <= status_code response < 300 ->
  body response = Some data ->
  retrieve_from_endpoint key network url trace =
  (Returned (Str (json_dumps data)),
   trace ++ [ {| url := url; Authorization := key |} ])
  /\ forall trace', json_loads (Str (json_dumps data)) trace' = (Returned data, trace').
Proof.
  intros Hnet Hstatus Hbody. split; [|reflexivity].
  rewrite retrieve_from_endpoint_cases, Hnet, Hbody.
  assert ((400 <=? status_code response) && (status_code response <? 600) = false) as ->.
  { apply andb_false_iff. left. apply Z.leb_gt. lia. }
  reflexivity.
Qed.

Lemma retrieve_returns_serialised_payload_witness :
  retrieve_from_endpoint "key" always_empty "https://api.sectors.app/v1/daily/BBRI/" [] =
  (Returned (Str (json_dumps (JObj []))),
   [ {| url := "https://api.sectors.app/v1/daily/BBRI/"; Authorization := "key" |} ]).
Proof.
  apply (proj1 (retrieve_returns_serialised_payload "key" always_empty
                  "https://api.sectors.app/v1/daily/BBRI/"
                  {| status_code := 200; body := Some (JObj []) |} (JObj []) []
                  eq_refl ltac:(simpl; lia) eq_refl)).
Defined.

(** ** Errors of the remote API *)

(** An answer with a status from 400 to 599 leaves the helper as
    [SystemExit], whatever the status. *)
Lemma retrieve_raises_SystemExit key network url response trace :
  network {| url := url; Authorization := key |} = Answered response ->
  400 <= status_code response < 600 ->
  retrieve_from_endpoint key network url trace =
  (Raised (SystemExit (HTTPError response)),
   trace ++ [ {| url := url; Authorization := key |} ]).
Proof.
  intros Hnet Hstatus. rewrite retrieve_from_endpoint_cases, Hnet.
  assert ((400 <=? status_code response) && (status_code response <? 600) = true) as ->.
  { apply andb_true_iff. rewrite Z.leb_le, Z.ltb_lt. lia. }
  reflexivity.
Qed.

(** No [except] clause of the chat loop takes a [SystemExit]. *)
Lemma SystemExit_not_handled e : except_clauses (SystemExit e) = None.
Proof. reflexivity. Qed.

(** The handlers as they would work on an [HTTPError] itself. *)
Example http_error_429_handled :
  page (chat_turn [] "hi" (Raised (HTTPError {| status_code := 429; body := None |}))) =
  [ chat_write "user" "hi"; st_error usage_limit_reached ].
Proof. reflexivity. Qed.

(** C4. The code at an answer of status 429 (and likewise 500): the tool
    raises [SystemExit], the turn shows no error text, the user's message
    stays in the transcript and the exception leaves the script. *)
Theorem rate_limit_leaves_the_script :
  turn_with_call "key" always_429 [] "volume of BBRI?" (call_get_daily_tx "BBRI") "" =
  {| messages := [ {| role := "user"; content := "volume of BBRI?" |} ];
     page := [ chat_write "user" "volume of BBRI?" ];
     uncaught := Some (SystemExit (HTTPError {| status_code := 429; body := None |})) |}
  /\ turn_with_call "key" always_500 [] "volume of BBRI?" (call_get_daily_tx "BBRI") "" =
     {| messages := [ {| role := "user"; content := "volume of BBRI?" |} ];
        page := [ chat_write "user" "volume of BBRI?" ];
        uncaught := Some (SystemExit (HTTPError {| status_code := 500; body := None |})) |}.
Proof. split; reflexivity. Qed.

(** C9. The list given to the agent holds five of the six functions that
    carry [@tool]: [get_subsector_report] is not in it. *)
Theorem subsector_report_not_registered :
  registered tool_get_subsector_report = false
  /\ In tool_get_subsector_report decorated_tools
  /\ length tools = 5%nat
  /\ map registered decorated_tools = [true; true; true; true; true; false].
Proof.
  repeat split; try reflexivity. simpl. tauto.
Qed.

(** * Further properties of the code *)

(** ** The aggregation *)

Lemma Zsum_app l1 l2 : Zsum (l1 ++ l2) = Zsum l1 + Zsum l2.
Proof. induction l1 as [|x l1 IH]; simpl; [reflexivity | rewrite IH; lia]. Qed.

Lemma Zsum_ones {A} (l : list A) : Zsum (map (fun _ => 1) l) = Z.of_nat (length l).
Proof.
  induction l as [|x l IH]; [reflexivity|].
  change (1 + Zsum (map (fun _ => 1) l) = Z.of_nat (S (length l))).
  rewrite IH. lia.
Qed.

Lemma Zsum_perm l1 l2 : Permutation l1 l2 -> Zsum l1 = Zsum l2.
Proof. induction 1; simpl; lia. Qed.

(** An update of a present key adds to the sum of a field what it adds
    to the field of one value. *)
Lemma Zsum_update {V} (f : V -> Z) (g : V -> V) (delta : Z) k (d : dict V) :
  (forall v, f (g v) = f v + delta) ->
  contains k d = true ->
  Zsum (map f (values (update k g d))) = Zsum (map f (values d)) + delta.
Proof.
  intros Hg. unfold contains. induction d as [|[k' v] d IH]; simpl; [discriminate|].
  destruct (String.eqb k k'); simpl.
  - intros _. rewrite Hg. lia.
  - intro H. rewrite IH by exact H. lia.
Qed.

Lemma Zsum_aggregate_record (f : Accumulator -> Z) (g : TradeRecord -> Z) d r :
  (forall a, f (add_record r a) = f a + g r) ->
  f (new_accumulator r) = g r ->
  Zsum (map f (values (aggregate_record d r))) = Zsum (map f (values d)) + g r.
Proof.
  intros Hadd Hnew. unfold aggregate_record.
  destruct (contains (symbol r) d) eqn:E.
  - now apply Zsum_update.
  - rewrite set_new by exact E. unfold values.
    rewrite !map_app, Zsum_app. simpl. rewrite Hnew. lia.
Qed.

Lemma Zsum_fold (f : Accumulator -> Z) (g : TradeRecord -> Z) rs :
  (forall r a, f (add_record r a) = f a + g r) ->
  (forall r, f (new_accumulator r) = g r) ->
  forall d,
    Zsum (map f (values (fold_left aggregate_record rs d))) =
    Zsum (map f (values d)) + Zsum (map g rs).
Proof.
  intros Hadd Hnew. induction rs as [|r rs IH]; intro d; simpl; [lia|].
  rewrite IH, Zsum_aggregate_record with (g := g) by auto. lia.
Qed.

Lemma averaged_entry data_dict e :
  In e (map set_average (values (aggregate data_dict))) ->
  exists r rs, records_for (acc_symbol e) data_dict = r :: rs
               /\ e = set_average (accumulate rs (new_accumulator r)).
Proof.
  intro H. apply in_map_iff in H. destruct H as (a & <- & Ha).
  apply in_map_iff in Ha. destruct Ha as ([k a'] & Hk & Hin). simpl in Hk. subst a'.
  simpl. rewrite (aggregate_symbol _ _ _ Hin).
  destruct (aggregate_entry _ _ _ Hin) as (r & rs & Hr & ->). eauto.
Qed.

Lemma averaged_volume data_dict e :
  In e (map set_average (values (aggregate data_dict))) ->
  acc_volume e = total_volume (acc_symbol e) data_dict.
Proof.
  intro H. destruct (averaged_entry _ _ H) as (r & rs & Hr & ->).
  unfold total_volume. rewrite Hr. simpl. now rewrite accumulate_volume.
Qed.

Lemma StronglySorted_app_inv {A} (R : A -> A -> Prop) l1 l2 x y :
  StronglySorted R (l1 ++ l2) -> In x l1 -> In y l2 -> R x y.
Proof.
  induction l1 as [|a l1 IH]; simpl; [tauto|].
  intros Hs [->|Hx] Hy; inversion Hs as [|? ? Hs' Hall]; subst.
  - rewrite Forall_forall in Hall. apply Hall. apply in_or_app. now right.
  - now apply IH.
Qed.

(** X1. The entries kept are the largest: a symbol of the input that is
    not in the output has a total volume no larger than the volume of any
    entry of the output. *)
Theorem top_n_are_the_largest data_dict top_n e s :
  In e (sorted_data data_dict top_n) ->
  In s (map symbol (records_of data_dict)) ->
  ~ In s (map acc_symbol (sorted_data data_dict top_n)) ->
  total_volume s data_dict <= acc_volume e.
Proof.
  intros He Hs Hout. unfold sorted_data in *.
  set (S := sorted (values (average_prices (aggregate data_dict))) acc_volume true) in *.
  destruct (slice_to_firstn S top_n) as [m Hm]. rewrite Hm in *.
  assert (Hperm : Permutation S (map set_average (values (aggregate data_dict)))).
  { unfold S. rewrite <- values_average_prices. apply sorted_perm. }
  assert (Ha : exists a, In a S /\ acc_symbol a = s).
  { assert (Hk : In s (map acc_symbol S)).
    { apply (Permutation_in s (Permutation_map acc_symbol (Permutation_sym Hperm))).
      rewrite symbols_aggregate, keys_aggregate. now apply first_occurrences_In. }
    apply in_map_iff in Hk. destruct Hk as (a & Ha & Hin). eauto. }
  destruct Ha as (a & Hin & <-).
  rewrite <- (averaged_volume data_dict a) by (eapply Permutation_in; eauto).
  rewrite <- (firstn_skipn m S) in Hin. apply in_app_or in Hin.
  destruct Hin as [Hin|Hin]; [exfalso; apply Hout; now apply in_map|].
  assert (Hsorted : StronglySorted (descending acc_volume) (firstn m S ++ skipn m S)).
  { rewrite firstn_skipn. apply sorted_reverse_descending. }
  exact (StronglySorted_app_inv _ _ _ _ _ Hsorted He Hin).
Qed.

Lemma top_n_are_the_largest_witness :
  total_volume "BBBB" scenario <= acc_volume scenario_AAAA.
Proof.
  apply (top_n_are_the_largest scenario 1 scenario_AAAA "BBBB").
  - vm_compute. left. reflexivity.
  - vm_compute. right. left. reflexivity.
  - vm_compute. intros [H|[]]. discriminate.
Defined.

(** X2. When [top_n] is at least the number of distinct symbols nothing is
    cut off: the output has an entry for every symbol of the input, its
    volumes add up to the volume of all records and its counts to the
    number of records. *)
Theorem nothing_lost_when_top_n_large data_dict top_n :
  Z.of_nat (length (distinct_symbols data_dict)) <= top_n ->
  (forall s, In s (map acc_symbol (sorted_data data_dict top_n)) <->
             In s (map symbol (records_of data_dict)))
  /\ Zsum (map acc_volume (sorted_data data_dict top_n)) =
     Zsum (map volume (records_of data_dict))
  /\ Zsum (map count (sorted_data data_dict top_n)) =
     Z.of_nat (length (records_of data_dict)).
Proof.
  intro Hn.
  set (S := sorted (values (average_prices (aggregate data_dict))) acc_volume true).
  assert (Hperm : Permutation S (map set_average (values (aggregate data_dict)))).
  { unfold S. rewrite <- values_average_prices. apply sorted_perm. }
  assert (Hlen : length S = length (distinct_symbols data_dict)).
  { rewrite (Permutation_length Hperm), <- distinct_symbols_length.
    unfold values, keys. now rewrite !length_map. }
  assert (Hall : sorted_data data_dict top_n = S).
  { unfold sorted_data. fold S. unfold slice_to.
    destruct (Z.leb_spec 0 top_n); [|lia]. apply firstn_all2. lia. }
  rewrite Hall. split; [|split].
  - intro s.
    assert (Hk : Permutation (map acc_symbol S) (keys (aggregate data_dict))).
    { rewrite <- symbols_aggregate. now apply Permutation_map. }
    split; intro H.
    + apply (Permutation_in s Hk) in H.
      rewrite keys_aggregate in H. now apply first_occurrences_In.
    + apply (Permutation_in s (Permutation_sym Hk)).
      rewrite keys_aggregate. now apply first_occurrences_In.
  - rewrite (Zsum_perm _ _ (Permutation_map acc_volume Hperm)), map_map. simpl.
    rewrite aggregate_flat.
    rewrite (Zsum_fold acc_volume volume) by reflexivity. simpl. lia.
  - rewrite (Zsum_perm _ _ (Permutation_map count Hperm)), map_map. simpl.
    rewrite aggregate_flat.
    rewrite (Zsum_fold count (fun _ => 1)) by reflexivity.
    rewrite Zsum_ones. reflexivity.
Qed.

Lemma nothing_lost_when_top_n_large_witness :
  Zsum (map acc_volume (sorted_data scenario 5)) = Zsum (map volume (records_of scenario))
  /\ Zsum (map count (sorted_data scenario 5)) = Z.of_nat (length (records_of scenario)).
Proof.
  apply (nothing_lost_when_top_n_large scenario 5). vm_compute. discriminate.
Defined.

(** X3. Asking for fewer entries gives a prefix of what asking for more
    gives, on the same payload. *)
Theorem smaller_top_n_is_a_prefix data_dict n m :
  0 <= n <= m ->
  sorted_data data_dict n = firstn (Z.to_nat n) (sorted_data data_dict m).
Proof.
  intro H. unfold sorted_data, slice_to.
  destruct (Z.leb_spec 0 n); [|lia]. destruct (Z.leb_spec 0 m); [|lia].
  rewrite firstn_firstn. f_equal. lia.
Qed.

Lemma smaller_top_n_is_a_prefix_witness :
  sorted_data scenario 1 = firstn (Z.to_nat 1) (sorted_data scenario 2).
Proof. apply (smaller_top_n_is_a_prefix scenario 1 2). lia. Defined.

(** X4. The output depends on the records in the order the loops visit
    them and on nothing else: the dates they are filed under, and how the
    records are split between dates, do not matter. *)
Theorem only_the_records_matter data_dict1 data_dict2 top_n :
  records_of data_dict1 = records_of data_dict2 ->
  sorted_data data_dict1 top_n = sorted_data data_dict2 top_n.
Proof.
  intro H. unfold sorted_data. now rewrite !aggregate_flat, H.
Qed.

Lemma only_the_records_matter_witness :
  sorted_data scenario 2 = sorted_data scenario_one_date 2.
Proof. apply (only_the_records_matter scenario scenario_one_date 2). reflexivity. Defined.

(** X6. Every accumulator has a count of at least 1 when the averages are
    taken, so the division of line 111 never divides by zero. *)
Theorem count_is_positive data_dict k a :
  In (k, a) (aggregate data_dict) -> 1 <= count a.
Proof.
  intro H. destruct (aggregate_entry _ _ _ H) as (r & rs & _ & ->).
  rewrite accumulate_count. change (count (new_accumulator r)) with 1. lia.
Qed.

Lemma count_is_positive_witness :
  In ("AAAA", scenario_AAAA_total) (aggregate scenario)
  /\ 1 <= count scenario_AAAA_total.
Proof.
  assert (H : In ("AAAA", scenario_AAAA_total) (aggregate scenario))
    by (vm_compute; left; reflexivity).
  split; [exact H|].
  exact (count_is_positive scenario "AAAA" scenario_AAAA_total H).
Defined.

(** ** The helper and the tools *)

Lemma retrieve_trace key network url trace :
  snd (retrieve_from_endpoint key network url trace) =
  trace ++ [ {| url := url; Authorization := key |} ].
Proof. now rewrite retrieve_from_endpoint_cases. Qed.

Lemma retrieve_raises key network url trace e :
  fst (retrieve_from_endpoint key network url trace) = Raised e ->
  e = ConnectionError \/ e = JSONDecodeError
  \/ exists response,
       network {| url := url; Authorization := key |} = Answered response
       /\ 400 <= status_code response < 600
       /\ e = SystemExit (HTTPError response).
Proof.
  rewrite retrieve_from_endpoint_cases. simpl.
  destruct (network _) as [response|]; [|intro H; inversion H; auto].
  destruct ((400 <=? status_code response) && (status_code response <? 600)) eqn:E.
  - intro H. inversion H. right. right. exists response.
    apply andb_true_iff in E. rewrite Z.leb_le, Z.ltb_lt in E.
    repeat split; tauto.
  - destruct (body response); intro H; inversion H. auto.
Qed.

(** X7. The status decides between error and success at 400 and 600: an
    answer with a status from 400 to 599 makes [retrieve_from_endpoint]
    raise [SystemExit] carrying the [HTTPError]; any other status, 2xx or
    not, is taken as success, and the helper returns the serialised body
    or raises [JSONDecodeError] when the body is not JSON. Either way one
    request is issued. *)
Theorem error_status_boundary key network url response trace :
  network {| url := url; Authorization := key |} = Answered response ->
  (400 <= status_code response < 600 ->
   retrieve_from_endpoint key network url trace =
   (Raised (SystemExit (HTTPError response)),
    trace ++ [ {| url := url; Authorization := key |} ]))
  /\ (status_code response < 400 \/ 600 <= status_code response ->
      retrieve_from_endpoint key network url trace =
      (match body response with
       | Some data => Returned (Str (json_dumps data))
       | None => Raised JSONDecodeError
       end,
       trace ++ [ {| url := url; Authorization := key |} ])).
Proof.
  intro Hnet. rewrite retrieve_from_endpoint_cases, Hnet. split; intro H.
  - assert ((400 <=? status_code response) && (status_code response <? 600) = true) as ->;
      [|reflexivity].
    apply andb_true_iff. rewrite Z.leb_le, Z.ltb_lt. lia.
  - assert ((400 <=? status_code response) && (status_code response <? 600) = false) as ->.
    { apply andb_false_iff. rewrite Z.leb_gt, Z.ltb_ge. lia. }
    now destruct (body response).
Qed.

Lemma error_status_boundary_witness :
  retrieve_from_endpoint "key" always_304 "https://api.sectors.app/v1/daily/BBRI/" [] =
  (Returned (Str (json_dumps (JArr []))),
   [ {| url := "https://api.sectors.app/v1/daily/BBRI/"; Authorization := "key" |} ])
  /\ retrieve_from_endpoint "key" always_500 "https://api.sectors.app/v1/daily/BBRI/" [] =
     (Raised (SystemExit (HTTPError {| status_code := 500; body := None |})),
      [ {| url := "https://api.sectors.app/v1/daily/BBRI/"; Authorization := "key" |} ]).
Proof.
  split.
  - apply (proj2 (error_status_boundary "key" always_304
                    "https://api.sectors.app/v1/daily/BBRI/"
                    {| status_code := 304; body := Some (JArr []) |} [] eq_refl)).
    left. simpl. lia.
  - apply (proj1 (error_status_boundary "key" always_500
                    "https://api.sectors.app/v1/daily/BBRI/"
                    {| status_code := 500; body := None |} [] eq_refl)).
    simpl. lia.
Defined.

(** X8. A failure below HTTP goes through the helper unchanged: when the
    API cannot be reached [retrieve_from_endpoint] raises
    [ConnectionError], and when the body of a successful answer is not
    JSON it raises [JSONDecodeError]; neither is turned into
    [SystemExit], and the chat loop takes both in its clause for
    [RequestException]. *)
Theorem request_exceptions_pass_through key network url trace :
  (network {| url := url; Authorization := key |} = Unreachable ->
   retrieve_from_endpoint key network url trace =
   (Raised ConnectionError, trace ++ [ {| url := url; Authorization := key |} ]))
  /\ (forall response,
        network {| url := url; Authorization := key |} = Answered response ->
        (status_code response < 400 \/ 600 <= status_code response) ->
        body response = None ->
        retrieve_from_endpoint key network url trace =
        (Raised JSONDecodeError, trace ++ [ {| url := url; Authorization := key |} ]))
  /\ except_clauses ConnectionError = Some (network_issue ConnectionError)
  /\ except_clauses JSONDecodeError = Some (network_issue JSONDecodeError).
Proof.
  rewrite retrieve_from_endpoint_cases. split; [|split; [|split; reflexivity]].
  - now intros ->.
  - intros response -> Hstatus ->.
    assert ((400 <=? status_code response) && (status_code response <? 600) = false) as ->;
      [|reflexivity].
    apply andb_false_iff. rewrite Z.leb_gt, Z.ltb_ge. lia.
Qed.

Lemma request_exceptions_pass_through_witness :
  retrieve_from_endpoint "key" never_answers "https://api.sectors.app/v1/daily/BBRI/" [] =
  (Raised ConnectionError,
   [ {| url := "https://api.sectors.app/v1/daily/BBRI/"; Authorization := "key" |} ]).
Proof.
  apply (proj1 (request_exceptions_pass_through "key" never_answers
                  "https://api.sectors.app/v1/daily/BBRI/" [])).
  reflexivity.
Defined.

Lemma run_tool_trace key network c trace :
  snd (run_tool key network c trace) = trace
  \/ exists u, String.prefix api_root u = true
               /\ snd (run_tool key network c trace) =
                  trace ++ [ {| url := u; Authorization := key |} ].
Proof.
  destruct c; simpl.
  - rewrite get_company_report_cases.
    destruct (list_contains sections valid_sections); [|now left].
    destruct (Nat.eqb (String.length stock) 4); [|now left].
    right. eexists. split; [|apply retrieve_trace]. reflexivity.
  - rewrite get_top_companies_cases.
    destruct (0 <? top_n); [|now left].
    right. exists (most_traded_url start_date end_date top_n). split; [reflexivity|].
    rewrite retrieve_from_endpoint_cases.
    destruct (network _) as [response|]; [|reflexivity].
    destruct ((400 <=? status_code response) && (status_code response <? 600));
      [reflexivity|].
    destruct (body response) as [payload|]; [|reflexivity].
    now destruct (read_data_dict payload).
  - right. eexists. split; [|apply retrieve_trace]. reflexivity.
  - right. eexists. split; [|apply retrieve_trace]. reflexivity.
  - right. eexists. split; [|apply retrieve_trace]. reflexivity.
  - right. eexists. split; [|apply retrieve_trace]. reflexivity.
Qed.

(** X9. A call of any tool, with any arguments and whatever the API does,
    issues at most one request; the request goes to an address under
    [https://api.sectors.app/v1/] and carries the key, and the requests
    issued before stay as they are. *)
Theorem tools_send_key_only_to_api key network c trace :
  exists new,
    snd (run_tool key network c trace) = trace ++ new
    /\ (length new <= 1)%nat
    /\ Forall (fun request =>
                 Authorization request = key
                 /\ String.prefix api_root (url request) = true) new.
Proof.
  destruct (run_tool_trace key network c trace) as [H|(u & Hu & H)].
  - exists []. rewrite H, app_nil_r. repeat split; auto.
  - exists [ {| url := u; Authorization := key |} ]. rewrite H.
    repeat split; auto.
Qed.

(** X10. Four tools check nothing: [get_daily_tx],
    [get_company_performance_ipo], [get_companies_by_subsector] and
    [get_subsector_report] issue their request for every argument, also an
    empty one or a symbol that has not 4 letters, and never raise an
    [AssertionError]. *)
Theorem tools_without_validation key network c trace :
  In (tool_of c) tools_without_assertion ->
  (exists request, snd (run_tool key network c trace) = trace ++ [request])
  /\ forall message, fst (run_tool key network c trace) <> Raised (AssertionError message).
Proof.
  intro H.
  assert (Hr : exists u, run_tool key network c trace = retrieve_from_endpoint key network u trace).
  { destruct c; simpl in H; try (exfalso; intuition discriminate);
      eexists; reflexivity. }
  destruct Hr as [u ->]. split.
  - eexists. apply retrieve_trace.
  - intros message E. apply retrieve_raises in E.
    destruct E as [E|[E|(response & _ & _ & E)]]; discriminate.
Qed.

Lemma tools_without_validation_witness :
  exists request,
    snd (run_tool "key" always_empty (call_get_daily_tx "") []) = [] ++ [request].
Proof.
  apply (tools_without_validation "key" always_empty (call_get_daily_tx "") []).
  simpl. now left.
Defined.

Lemma run_tool_raises key network c trace e :
  fst (run_tool key network c trace) = Raised e ->
  isinstance_Exception e = true
  \/ exists request response,
       network request = Answered response
       /\ Authorization request = key
       /\ 400 <= status_code response < 600
       /\ e = SystemExit (HTTPError response).
Proof.
  assert (Hretrieve : forall u trace',
             fst (retrieve_from_endpoint key network u trace') = Raised e ->
             isinstance_Exception e = true
             \/ exists request response,
                  network request = Answered response
                  /\ Authorization request = key
                  /\ 400 <= status_code response < 600
                  /\ e = SystemExit (HTTPError response)).
  { intros u trace' H. apply retrieve_raises in H.
    destruct H as [->|[->|(response & Hnet & Hs & ->)]]; [now left | now left|].
    right. exists {| url := u; Authorization := key |}, response. auto. }
  destruct c; simpl; try apply Hretrieve.
  - rewrite get_company_report_cases.
    destruct (list_contains sections valid_sections);
      [|intro H; inversion H; now left].
    destruct (Nat.eqb (String.length stock) 4);
      [apply Hretrieve | intro H; inversion H; now left].
  - rewrite get_top_companies_cases.
    destruct (0 <? top_n); [|intro H; inversion H; now left].
    pose proof (Hretrieve (most_traded_url start_date end_date top_n) trace) as Hr.
    destruct (retrieve_from_endpoint _ _ _ _) as [[data|e'] trace']; simpl in *.
    + destruct data as [j|[payload]]; [intro H; inversion H; now left|].
      destruct (read_data_dict payload); intro H; inversion H. now left.
    + exact Hr.
Qed.

(** X11. Of all that a tool can raise, only the [SystemExit] made from an
    HTTP error status leaves the chat loop: when a turn with a call of a
    tool ends with an exception that no clause took, the API answered a
    request that carried the key with a status from 400 to 599, and the
    page shows no error text. *)
Theorem only_http_errors_escape key network session_messages prompt c output e :
  uncaught (turn_with_call key network session_messages prompt c output) = Some e ->
  (exists request response,
      network request = Answered response
      /\ Authorization request = key
      /\ 400 <= status_code response < 600
      /\ e = SystemExit (HTTPError response))
  /\ page (turn_with_call key network session_messages prompt c output) =
     [ chat_write "user" prompt ].
Proof.
  unfold turn_with_call.
  destruct (fst (run_tool key network c [])) as [v|e'] eqn:E; [discriminate|].
  apply run_tool_raises in E. unfold chat_turn.
  destruct (except_clauses e') eqn:Hc; [discriminate|].
  simpl. intro H. inversion H; subst e'. split; [|reflexivity].
  destruct E as [E|E]; [|exact E].
  destruct e; try discriminate Hc; try discriminate E.
  simpl in Hc. destruct (status_code response =? 429); discriminate.
Qed.

Lemma only_http_errors_escape_witness :
  page (turn_with_call "key" always_500 [] "volume of BBRI?" (call_get_daily_tx "BBRI") "") =
  [ chat_write "user" "volume of BBRI?" ].
Proof.
  apply (proj2 (only_http_errors_escape "key" always_500 [] "volume of BBRI?"
                  (call_get_daily_tx "BBRI") ""
                  (SystemExit (HTTPError {| status_code := 500; body := None |}))
                  eq_refl)).
Defined.

(** ** The chat loop and the session state *)

Lemma chat_turn_messages session_messages prompt invoke :
  messages (chat_turn session_messages prompt invoke) =
  session_messages
  ++ {| role := "user"; content := prompt |}
  :: match invoke with
     | Returned response =>
         [ {| role := "assistant";
              content := match get "output" response with
                         | Some output => output
                         | None => "No response received."
                         end |} ]
     | Raised _ => []
     end.
Proof.
  unfold chat_turn. destruct invoke as [response|e].
  - destruct (get "output" response); simpl; now rewrite <- app_assoc.
  - now destruct (except_clauses e).
Qed.

Lemma answers_follow_inputs_app b l prompt rest :
  answers_follow_inputs b (l ++ {| role := "user"; content := prompt |} :: rest) =
  answers_follow_inputs b l && answers_follow_inputs true rest.
Proof.
  revert b. induction l as [|m l IH]; intro b; simpl; [reflexivity|].
  destruct (is_user m); [apply IH|]. rewrite IH. now rewrite andb_assoc.
Qed.

Lemma run_turns_append turns : forall session_messages,
  run_turns turns session_messages = session_messages ++ run_turns turns [].
Proof.
  unfold run_turns. induction turns as [|t turns IH]; intro msgs; simpl.
  - now rewrite app_nil_r.
  - rewrite IH. rewrite (IH (messages (chat_turn [] (fst t) (snd t)))).
    rewrite !chat_turn_messages. simpl. now rewrite <- app_assoc.
Qed.

(** X12. Over a session the transcript only grows, and it keeps its shape:
    what earlier runs left is a prefix of what later runs leave; the
    entries of the user are the inputs, one per run and in order, also for
    runs that failed; every other entry directly follows an entry of the
    user, so the transcript never holds two answers in a row. *)
Theorem transcript_of_session turns session_messages :
  run_turns turns session_messages = session_messages ++ run_turns turns []
  /\ map content (filter is_user (run_turns turns [])) = map fst turns
  /\ answers_follow_inputs false (run_turns turns []) = true
  /\ (length turns <= length (run_turns turns []) <= 2 * length turns)%nat.
Proof.
  split; [apply run_turns_append|].
  induction turns as [|t turns IH]; [repeat split; simpl; lia|].
  destruct IH as (Hu & Hf & Hl).
  change (run_turns (t :: turns) [])
    with (run_turns turns (messages (chat_turn [] (fst t) (snd t)))).
  rewrite run_turns_append, chat_turn_messages. simpl app.
  destruct (snd t) as [response|e].
  - split; [|split].
    + simpl. now rewrite Hu.
    + simpl. exact Hf.
    + simpl length. lia.
  - split; [|split].
    + simpl. now rewrite Hu.
    + simpl. clear -Hf. destruct (run_turns turns []) as [|m l]; [reflexivity|].
      simpl in *. destruct (is_user m); [exact Hf | discriminate].
    + simpl length. lia.
Qed.

(** X13. A turn whose [invoke] returns: with an [output] the transcript
    gains the input and the output, which is shown as success; without the
    key [output] the transcript gains the input and the text
    [No response received.], but the page shows the unexpected-error text
    for the [KeyError] of line 267 and no success. *)
Theorem turn_with_response session_messages prompt response :
  (forall output,
      get "output" response = Some output ->
      chat_turn session_messages prompt (Returned response) =
      {| messages := (session_messages ++ [ {| role := "user"; content := prompt |} ])
                     ++ [ {| role := "assistant"; content := output |} ];
         page := [ chat_write "user" prompt; st_success output ];
         uncaught := None |})
  /\ (get "output" response = None ->
      chat_turn session_messages prompt (Returned response) =
      {| messages := (session_messages ++ [ {| role := "user"; content := prompt |} ])
                     ++ [ {| role := "assistant"; content := "No response received." |} ];
         page := [ chat_write "user" prompt;
                   st_error (unexpected_error (KeyError "output")) ];
         uncaught := None |}).
Proof.
  unfold chat_turn. split.
  - intros output ->. reflexivity.
  - intros ->. reflexivity.
Qed.

Lemma turn_with_response_witness :
  page (chat_turn [] "hi" (Returned [("input", "hi")])) =
  [ chat_write "user" "hi"; st_error (unexpected_error (KeyError "output")) ]
  /\ page (chat_turn [] "hi" (Returned [("output", "hello")])) =
     [ chat_write "user" "hi"; st_success "hello" ].
Proof.
  split.
  - exact (f_equal page
             (proj2 (turn_with_response [] "hi" [("input", "hi")]) eq_refl)).
  - exact (f_equal page
             (proj1 (turn_with_response [] "hi" [("output", "hello")]) "hello" eq_refl)).
Defined.

Lemma get_set {V} s k (v : V) (d : dict V) :
  get s (set k v d) = if String.eqb s k then Some v else get s d.
Proof.
  unfold set. destruct (contains k d) eqn:E.
  - rewrite get_update. destruct (String.eqb_spec s k) as [->|]; [|reflexivity].
    unfold contains in E. now destruct (get k d).
  - rewrite get_app_new. destruct (String.eqb_spec s k) as [->|].
    + unfold contains in E. now destruct (get k d).
    + now destruct (get s d).
Qed.

Lemma get_init_key s k v d :
  get s (init_key k v d) =
  match get s d with
  | Some x => Some x
  | None => if String.eqb s k then Some v else None
  end.
Proof.
  unfold init_key. destruct (contains k d) eqn:E; simpl.
  - destruct (get s d) eqn:G; [reflexivity|].
    destruct (String.eqb_spec s k) as [->|]; [|reflexivity].
    unfold contains in E. now rewrite G in E.
  - rewrite get_set. destruct (String.eqb_spec s k) as [->|].
    + unfold contains in E. now destruct (get k d).
    + now destruct (get s d).
Qed.

Lemma init_key_present k v d : contains k d = true -> init_key k v d = d.
Proof. unfold init_key. now intros ->. Qed.

(** X14. The guarded initialisation of the session state fills what is
    missing and touches nothing else: after it the two keys and the
    transcript are present, a value that was there is still there, and a
    second run of it changes nothing; so a rerun of the script never
    clears the transcript or a key. *)
Theorem session_state_init_keeps_values session_state :
  let initialised := init_messages (init_api_keys session_state) in
  (forall k v, get k session_state = Some v -> get k initialised = Some v)
  /\ contains "sectors_api_key" initialised = true
  /\ contains "groq_api_key" initialised = true
  /\ contains "messages" initialised = true
  /\ (get "messages" session_state = None ->
      get "messages" initialised = Some (StateMessages []))
  /\ init_messages (init_api_keys initialised) = initialised.
Proof.
  intro initialised.
  assert (Hget : forall k, get k initialised =
            match get k session_state with
            | Some x => Some x
            | None =>
                if String.eqb k "sectors_api_key" then Some (StateStr "")
                else if String.eqb k "groq_api_key" then Some (StateStr "")
                else if String.eqb k "messages" then Some (StateMessages [])
                else None
            end).
  { intro k. unfold initialised, init_messages, init_api_keys.
    rewrite !get_init_key. destruct (get k session_state); [reflexivity|].
    destruct (String.eqb k "sectors_api_key"); [reflexivity|].
    now destruct (String.eqb k "groq_api_key"). }
  assert (H1 : contains "sectors_api_key" initialised = true).
  { unfold contains. rewrite Hget. now destruct (get _ session_state). }
  assert (H2 : contains "groq_api_key" initialised = true).
  { unfold contains. rewrite Hget. now destruct (get _ session_state). }
  assert (H3 : contains "messages" initialised = true).
  { unfold contains. rewrite Hget. now destruct (get _ session_state). }
  split; [intros k v H; now rewrite Hget, H|].
  split; [exact H1|]. split; [exact H2|]. split; [exact H3|].
  split; [intro H; now rewrite Hget, H|].
  unfold init_messages, init_api_keys.
  rewrite (init_key_present "sectors_api_key") by exact H1.
  rewrite (init_key_present "groq_api_key") by exact H2.
  now apply init_key_present.
Qed.

Lemma session_state_init_keeps_values_witness :
  get "messages"
      (init_messages (init_api_keys
         [ ("messages", StateMessages [ {| role := "user"; content := "hi" |} ]) ])) =
  Some (StateMessages [ {| role := "user"; content := "hi" |} ]).
Proof.
  apply (proj1 (session_state_init_keeps_values
                  [ ("messages", StateMessages [ {| role := "user"; content := "hi" |} ]) ])).
  reflexivity.
Defined.

(** ** The scenario of the specification *)

Example scenario_symbols :
  map acc_symbol (sorted_data scenario 2) = ["AAAA"; "BBBB"].
Proof. reflexivity. Qed.

Example scenario_volumes :
  map acc_volume (sorted_data scenario 2) = [300; 50].
Proof. reflexivity. Qed.

Example scenario_counts :
  map count (sorted_data scenario 2) = [2; 1].
Proof. reflexivity. Qed.

Example scenario_prices :
  Forall2 Qeq (map avg_price (sorted_data scenario 2)) [11%Q; 20%Q].
Proof. repeat constructor. Qed.

Example scenario_output :
  sorted_data scenario 2 = [scenario_AAAA; scenario_BBBB]
  /\ (avg_price scenario_AAAA == 11)%Q
  /\ (avg_price scenario_BBBB == 20)%Q.
Proof. repeat split. Qed.
